(** * Signing and webhook verification of the Apinator Node SDK

    A shallow embedding of [src/crypto.ts], [src/webhook.ts], [src/auth.ts]
    and the [trigger]/[request] methods of [src/client.ts], together with the
    properties of the signing core.

    Conventions of the embedding.

    - A JavaScript string is represented by the bytes of its UTF-8 encoding
      (a Rocq [string]); this is the form in which [update(s, "utf8")] feeds
      it to the hash.  Template literals are concatenations, comparison
      with the empty string is emptiness, and [startsWith]/[slice] with an
      ASCII prefix act on the bytes as they act on the code units.
    - A JavaScript number that holds a count of seconds or milliseconds is an
      integer of [Z]; where the code computes with numbers ([maxAge], the
      parsed timestamp, the age) they are values of [number], with the
      rounding and the infinities of doubles.
    - [Date.now()] is an input: the functions that read the clock take the
      value the read returns as an argument.
    - A JavaScript exception is the [Throw] case of [completion]. *)

From Stdlib Require Import ZArith String Ascii List Bool Lia.
From Stdlib Require Import Strings.Byte DecimalString DecimalPos.
Import ListNotations.

Local Open Scope string_scope.
Local Open Scope list_scope.
Local Open Scope Z_scope.

(* ===================================================================== *)
(** ** Machine words *)
(* ===================================================================== *)

Module Word32.

Definition wrap (x : Z) : Z := x mod 2 ^ 32.

Definition add (x y : Z) : Z := wrap (x + y).

Definition not (x : Z) : Z := Z.lxor x 0xffffffff.

Definition rotr (n x : Z) : Z :=
  Z.lor (Z.shiftr x n) (wrap (Z.shiftl x (32 - n))).

Definition rotl (n x : Z) : Z :=
  Z.lor (wrap (Z.shiftl x n)) (Z.shiftr x (32 - n)).

End Word32.

(* ===================================================================== *)
(** ** Byte buffers *)
(* ===================================================================== *)

Definition Buffer := list byte.

Definition byte_of_Z (z : Z) : byte :=
  byte_of_ascii (ascii_of_N (Z.to_N (z mod 256))).

Definition Z_of_byte (b : byte) : Z := Z.of_N (Byte.to_N b).

(** [Buffer.from(s, "utf8")]: the string is already its UTF-8 bytes. *)
Definition utf8 (s : string) : Buffer := list_byte_of_string s.

(** Big-endian and little-endian serialisations of a 32-bit word. *)
Definition be32 (w : Z) : Buffer :=
  [byte_of_Z (Z.shiftr w 24); byte_of_Z (Z.shiftr w 16);
   byte_of_Z (Z.shiftr w 8); byte_of_Z w].

Definition le32 (w : Z) : Buffer := rev (be32 w).

(** Cutting a list into consecutive chunks of [n] elements. *)
Fixpoint chunks {A} (fuel : nat) (n : nat) (l : list A) : list (list A) :=
  match fuel with
  | O => []
  | S fuel' =>
      match l with
      | [] => []
      | _ => firstn n l :: chunks fuel' n (skipn n l)
      end
  end.

Definition be_word (bs : list Z) : Z :=
  fold_left (fun acc b => acc * 256 + b) bs 0.

Definition le_word (bs : list Z) : Z := be_word (rev bs).

(** The 64-bit length field, most significant byte first. *)
Definition be64 (n : Z) : list Z :=
  map (fun i => Z.shiftr n (8 * i) mod 256) [7; 6; 5; 4; 3; 2; 1; 0].

(** Message padding shared by MD5 and SHA-256: a [0x80] byte, zeros up to
    56 modulo 64, then the bit length in the order given by [len_field]. *)
Definition pad (len_field : Z -> list Z) (msg : list Z) : list Z :=
  let n := Z.of_nat (length msg) in
  msg ++ [0x80] ++ repeat 0 (Z.to_nat ((55 - n) mod 64)) ++ len_field (8 * n).

(* ===================================================================== *)
(** ** SHA-256 (FIPS 180-4), the digest behind [createHmac("sha256", _)] *)
(* ===================================================================== *)

Module SHA256.
Import Word32.

(** The round constants are the first 32 bits of the fractional parts of the
    cube roots of the first 64 primes, the initial chaining words those of
    the square roots of the first 8 (FIPS 180-4, 4.2.2 and 5.3.3). *)
Definition isPrime (n : nat) : bool :=
  forallb (fun d => negb (n mod d =? 0)%nat) (seq 2 (n - 2)).

Definition primes : list Z := map Z.of_nat (filter isPrime (seq 2 310)).

(** The largest [r] below [2 ^ bits] with [r ^ k <= n], found bit by bit. *)
Fixpoint root (k : Z) (bits : nat) (n r : Z) : Z :=
  match bits with
  | O => r
  | S b =>
      let c := r + 2 ^ Z.of_nat b in
      root k b n (if c ^ k <=? n then c else r)
  end.

Definition fraction (k p : Z) : Z := wrap (root k 40 (p * 2 ^ (32 * k)) 0).

Definition K : list Z := Eval vm_compute in map (fraction 3) primes.

(** The eight chaining words. *)
Record state := State {
  ha : Z; hb : Z; hc : Z; hd : Z; he : Z; hf : Z; hg : Z; hh : Z
}.

Definition initial : state :=
  Eval vm_compute in
    match map (fraction 2) primes with
    | a :: b :: c :: d :: e :: f :: g :: h :: _ => State a b c d e f g h
    | _ => State 0 0 0 0 0 0 0 0
    end.

Definition Ch (x y z : Z) : Z := Z.lxor (Z.land x y) (Z.land (not x) z).
Definition Maj (x y z : Z) : Z :=
  Z.lxor (Z.lxor (Z.land x y) (Z.land x z)) (Z.land y z).
Definition Sigma0 (x : Z) : Z :=
  Z.lxor (Z.lxor (rotr 2 x) (rotr 13 x)) (rotr 22 x).
Definition Sigma1 (x : Z) : Z :=
  Z.lxor (Z.lxor (rotr 6 x) (rotr 11 x)) (rotr 25 x).
Definition sigma0 (x : Z) : Z :=
  Z.lxor (Z.lxor (rotr 7 x) (rotr 18 x)) (Z.shiftr x 3).
Definition sigma1 (x : Z) : Z :=
  Z.lxor (Z.lxor (rotr 17 x) (rotr 19 x)) (Z.shiftr x 10).

(** Message schedule, kept newest word first while it grows: with
    [W(t-1)] at the head, [W(t-2)], [W(t-7)], [W(t-15)] and [W(t-16)]
    sit at positions 1, 6, 14 and 15. *)
Fixpoint extend (n : nat) (w : list Z) : list Z :=
  match n with
  | O => w
  | S n' =>
      let wt := add (add (add (sigma1 (nth 1 w 0)) (nth 6 w 0))
                         (sigma0 (nth 14 w 0)))
                    (nth 15 w 0) in
      extend n' (wt :: w)
  end.

Definition schedule (block : list Z) : list Z :=
  rev (extend 48 (rev block)).

Definition round (s : state) (kw : Z * Z) : state :=
  let t1 := add (add (add (add (hh s) (Sigma1 (he s)))
                          (Ch (he s) (hf s) (hg s)))
                     (fst kw))
                (snd kw) in
  let t2 := add (Sigma0 (ha s)) (Maj (ha s) (hb s) (hc s)) in
  State (add t1 t2) (ha s) (hb s) (hc s) (add (hd s) t1) (he s) (hf s) (hg s).

Definition compress (h : state) (block : list Z) : state :=
  let s := fold_left round (combine K (schedule block)) h in
  State (add (ha h) (ha s)) (add (hb h) (hb s))
        (add (hc h) (hc s)) (add (hd h) (hd s))
        (add (he h) (he s)) (add (hf h) (hf s))
        (add (hg h) (hg s)) (add (hh h) (hh s)).

Definition blocks (msg : list Z) : list (list Z) :=
  let p := pad be64 msg in
  map (map be_word) (map (chunks 16 4) (chunks (length p) 64 p)).

Definition output (s : state) : Buffer :=
  be32 (ha s) ++ be32 (hb s) ++ be32 (hc s) ++ be32 (hd s) ++
  be32 (he s) ++ be32 (hf s) ++ be32 (hg s) ++ be32 (hh s).

Definition digest (msg : Buffer) : Buffer :=
  output (fold_left compress (blocks (map Z_of_byte msg)) initial).

End SHA256.

(* ===================================================================== *)
(** ** MD5 (RFC 1321), the digest behind [createHash("md5")] *)
(* ===================================================================== *)

Module MD5.
Import Word32.

Definition T : list Z :=
  [0xd76aa478; 0xe8c7b756; 0x242070db; 0xc1bdceee;
   0xf57c0faf; 0x4787c62a; 0xa8304613; 0xfd469501;
   0x698098d8; 0x8b44f7af; 0xffff5bb1; 0x895cd7be;
   0x6b901122; 0xfd987193; 0xa679438e; 0x49b40821;
   0xf61e2562; 0xc040b340; 0x265e5a51; 0xe9b6c7aa;
   0xd62f105d; 0x02441453; 0xd8a1e681; 0xe7d3fbc8;
   0x21e1cde6; 0xc33707d6; 0xf4d50d87; 0x455a14ed;
   0xa9e3e905; 0xfcefa3f8; 0x676f02d9; 0x8d2a4c8a;
   0xfffa3942; 0x8771f681; 0x6d9d6122; 0xfde5380c;
   0xa4beea44; 0x4bdecfa9; 0xf6bb4b60; 0xbebfbc70;
   0x289b7ec6; 0xeaa127fa; 0xd4ef3085; 0x04881d05;
   0xd9d4d039; 0xe6db99e5; 0x1fa27cf8; 0xc4ac5665;
   0xf4292244; 0x432aff97; 0xab9423a7; 0xfc93a039;
   0x655b59c3; 0x8f0ccc92; 0xffeff47d; 0x85845dd1;
   0x6fa87e4f; 0xfe2ce6e0; 0xa3014314; 0x4e0811a1;
   0xf7537e82; 0xbd3af235; 0x2ad7d2bb; 0xeb86d391].

Definition shifts : list Z :=
  [7; 12; 17; 22; 7; 12; 17; 22; 7; 12; 17; 22; 7; 12; 17; 22;
   5; 9; 14; 20; 5; 9; 14; 20; 5; 9; 14; 20; 5; 9; 14; 20;
   4; 11; 16; 23; 4; 11; 16; 23; 4; 11; 16; 23; 4; 11; 16; 23;
   6; 10; 15; 21; 6; 10; 15; 21; 6; 10; 15; 21; 6; 10; 15; 21].

Record state := State { ra : Z; rb : Z; rc : Z; rd : Z }.

Definition initial : state :=
  State 0x67452301 0xefcdab89 0x98badcfe 0x10325476.

(** The round function and the index of the message word of step [i]. *)
Definition mix (i : Z) (b c d : Z) : Z :=
  if i <? 16 then Z.lor (Z.land b c) (Z.land (not b) d)
  else if i <? 32 then Z.lor (Z.land d b) (Z.land (not d) c)
  else if i <? 48 then Z.lxor (Z.lxor b c) d
  else Z.lxor c (Z.lor b (not d)).

Definition pick (i : Z) : Z :=
  if i <? 16 then i
  else if i <? 32 then (5 * i + 1) mod 16
  else if i <? 48 then (3 * i + 5) mod 16
  else (7 * i) mod 16.

Definition step (block : list Z) (s : state) (i : Z) : state :=
  let n := Z.to_nat i in
  let f := add (add (add (mix i (rb s) (rc s) (rd s)) (ra s)) (nth n T 0))
               (nth (Z.to_nat (pick i)) block 0) in
  State (rd s) (add (rb s) (rotl (nth n shifts 0) f)) (rb s) (rc s).

Definition steps : list Z := map Z.of_nat (seq 0 64).

Definition compress (h : state) (block : list Z) : state :=
  let s := fold_left (step block) steps h in
  State (add (ra h) (ra s)) (add (rb h) (rb s))
        (add (rc h) (rc s)) (add (rd h) (rd s)).

Definition blocks (msg : list Z) : list (list Z) :=
  let p := pad (fun n => rev (be64 n)) msg in
  map (map le_word) (map (chunks 16 4) (chunks (length p) 64 p)).

Definition output (s : state) : Buffer :=
  le32 (ra s) ++ le32 (rb s) ++ le32 (rc s) ++ le32 (rd s).

Definition digest (msg : Buffer) : Buffer :=
  output (fold_left compress (blocks (map Z_of_byte msg)) initial).

End MD5.

(* ===================================================================== *)
(** ** HMAC (RFC 2104) over SHA-256 *)
(* ===================================================================== *)

Module HMAC.

Definition block_size : nat := 64.

Definition xor_byte (p : Z) (b : byte) : byte :=
  byte_of_Z (Z.lxor p (Z_of_byte b)).

(** Keys longer than a block are hashed first; all are zero-padded. *)
Definition block_key (key : Buffer) : Buffer :=
  let k := if (block_size <? length key)%nat then SHA256.digest key else key in
  k ++ repeat x00 (block_size - length k).

Definition sha256 (key msg : Buffer) : Buffer :=
  let k := block_key key in
  SHA256.digest (map (xor_byte 0x5c) k ++
                 SHA256.digest (map (xor_byte 0x36) k ++ msg)).

End HMAC.

(* ===================================================================== *)
(** ** Hexadecimal text: [digest("hex")] and [Buffer.from(s, "hex")] *)
(* ===================================================================== *)

Definition hexDigit (n : N) : ascii :=
  (if n <? 10 then ascii_of_N (48 + n) else ascii_of_N (87 + n))%N.

(** [buf.toString("hex")]: two lowercase digits per byte. *)
Fixpoint hexEncode (b : Buffer) : string :=
  match b with
  | [] => EmptyString
  | x :: rest =>
      let n := Byte.to_N x in
      String (hexDigit (n / 16)) (String (hexDigit (n mod 16)) (hexEncode rest))
  end.

(** Value of a hexadecimal digit, of either case. *)
Definition unhex (c : ascii) : option N :=
  let n := N_of_ascii c in
  (if (48 <=? n) && (n <=? 57) then Some (n - 48)
   else if (97 <=? n) && (n <=? 102) then Some (n - 87)
   else if (65 <=? n) && (n <=? 70) then Some (n - 55)
   else None)%N.

(** [Buffer.from(s, "hex")].  Node does not reject malformed input: it
    decodes pairs of digits from the left and stops, keeping what it has, at
    the first pair that is not two hexadecimal digits or at a trailing single
    character ([Buffer.from("1ag123", "hex")] is [<Buffer 1a>],
    [Buffer.from("1a7", "hex")] is [<Buffer 1a>]).  The definition is exact
    on ASCII text.  Of a character outside ASCII Node reads the low byte of
    the code unit, which the UTF-8 form does not keep; statements that
    depend on how such text decodes assume an ASCII signature. *)
Fixpoint hexDecode (s : string) : Buffer :=
  match s with
  | String c1 (String c2 rest) =>
      match unhex c1, unhex c2 with
      | Some hi, Some lo =>
          byte_of_ascii (ascii_of_N (16 * hi + lo)) :: hexDecode rest
      | _, _ => []
      end
  | _ => []
  end.

(** [createHash("md5").update(data, "utf8").digest("hex")] (crypto.ts:6). *)
Definition md5Hex (data : string) : string :=
  hexEncode (MD5.digest (utf8 data)).

(** [createHmac("sha256", secret).update(msg, "utf8").digest("hex")]. *)
Definition hmacSha256Hex (secret msg : string) : string :=
  hexEncode (HMAC.sha256 (utf8 secret) (utf8 msg)).

(* ===================================================================== *)
(** ** JavaScript values and string operations used by the sources *)
(* ===================================================================== *)

Definition LF : string := String "010" EmptyString.

(** Comparison with the empty string; also [!s] for a value known to be a
    string. *)
Definition isEmpty (s : string) : bool :=
  match s with EmptyString => true | _ => false end.

(** Truthiness of an optional string ([undefined] and the empty string are
    falsy) and of an optional array (every array, the empty one too, is
    truthy). *)
Definition truthy (o : option string) : bool :=
  match o with Some s => negb (isEmpty s) | None => false end.

Definition truthyArray {A} (o : option (list A)) : bool :=
  match o with Some _ => true | None => false end.

(** [String.prototype.toLowerCase], on the bytes of the UTF-8 form: the
    letters [A]-[Z] are mapped, every other byte is kept.  The method is
    only used to compare a header name with [x-realtime-signature] and
    [x-realtime-timestamp]; no character outside ASCII lowers to a string of
    the letters of these two names, so the comparison is decided alike. *)
Definition lowerAscii (c : ascii) : ascii :=
  let n := N_of_ascii c in
  (if (65 <=? n) && (n <=? 90) then ascii_of_N (n + 32) else c)%N.

Fixpoint toLowerCase (s : string) : string :=
  match s with
  | EmptyString => EmptyString
  | String c rest => String (lowerAscii c) (toLowerCase rest)
  end.

(** [s.startsWith(p)] and [s.slice(n)]. *)
Definition startsWith (s p : string) : bool := String.prefix p s.

Fixpoint slice (n : nat) (s : string) : string :=
  match n, s with
  | O, _ => s
  | S n', String _ rest => slice n' rest
  | S _, EmptyString => EmptyString
  end.

(** Template rendering of a number that is a safe integer, [`${n}`]: its
    decimal numeral.  (Beyond 2^53 JavaScript prints the shortest digits
    that identify the double, which this definition does not follow; the
    statements about rendered numbers assume a safe integer.) *)
Definition numberToString (n : Z) : string :=
  NilZero.string_of_int (Z.to_int n).

(** *** [parseInt(s, 10)] *)

Definition byteAt (i : nat) (s : string) : N :=
  match String.get i s with Some c => N_of_ascii c | None => 256%N end.

(** Length in bytes of the white space or line terminator character at the
    head of [s] (ECMAScript [StrWhiteSpaceChar]), or [0] if there is none. *)
Definition whiteSpaceAt (s : string) : nat :=
  let b0 := byteAt 0 s in
  let b1 := byteAt 1 s in
  let b2 := byteAt 2 s in
  (if ((9 <=? b0) && (b0 <=? 13)) || (b0 =? 32) then 1%nat
   else if (b0 =? 0xC2) && (b1 =? 0xA0) then 2%nat
   else if (b0 =? 0xE1) && (b1 =? 0x9A) && (b2 =? 0x80) then 3%nat
   else if (b0 =? 0xE2) && (b1 =? 0x80)
           && (((0x80 <=? b2) && (b2 <=? 0x8A)) || (b2 =? 0xA8)
               || (b2 =? 0xA9) || (b2 =? 0xAF)) then 3%nat
   else if (b0 =? 0xE2) && (b1 =? 0x81) && (b2 =? 0x9F) then 3%nat
   else if (b0 =? 0xE3) && (b1 =? 0x80) && (b2 =? 0x80) then 3%nat
   else if (b0 =? 0xEF) && (b1 =? 0xBB) && (b2 =? 0xBF) then 3%nat
   else 0%nat)%N.

Fixpoint trimStart (fuel : nat) (s : string) : string :=
  match fuel with
  | O => s
  | S fuel' =>
      match whiteSpaceAt s with
      | O => s
      | n => trimStart fuel' (slice n s)
      end
  end.

Definition digitValue (c : ascii) : option Z :=
  let n := N_of_ascii c in
  (if (48 <=? n) && (n <=? 57) then Some (Z.of_N (n - 48)) else None)%N.

(** The longest prefix of decimal digits, read left to right; [None] when
    the string does not start with a digit. *)
Fixpoint digits (acc : option Z) (s : string) : option Z :=
  match s with
  | EmptyString => acc
  | String c rest =>
      match digitValue c with
      | Some d =>
          digits (Some (10 * match acc with Some a => a | None => 0 end + d))
                 rest
      | None => acc
      end
  end.

(** [parseInt(s, 10)]: leading white space is skipped, one sign is read,
    then the longest run of digits; what follows is ignored.  [None] is
    [NaN]; [Some z] is the integer the digits denote, of which JavaScript
    returns the Number value, [toNumber z] (the nearest double, or an
    infinity).  The callers below apply [toNumber] where they use the
    value. *)
Definition parseInt (s : string) : option Z :=
  let t := trimStart (String.length s) s in
  match t with
  | String "-" rest => option_map Z.opp (digits None rest)
  | String "+" rest => digits None rest
  | _ => digits None t
  end.

(** *** Numbers *)

(** The JavaScript numbers that occur in the freshness test: [NaN], the two
    infinities, and the integers.  An integer stands for itself; the
    integers a double can hold are those [roundInteger] leaves unchanged.
    Fractional numbers, which this code meets only if a caller passes one
    as [maxAge], are not represented. *)
Inductive number :=
| NaN
| Infinity (negative : bool)
| Finite (value : Z).

(** The integers from [-(2^53 - 1)] to [2^53 - 1], which every double
    arithmetic below treats exactly ([Number.isSafeInteger]). *)
Definition safeInteger (z : Z) : Prop := - 2 ^ 53 < z < 2 ^ 53.

(** The double nearest to an integer: 53 significant bits, ties to the even
    significand. *)
Definition roundInteger (z : Z) : Z :=
  let a := Z.abs z in
  let k := Z.log2 a - 52 in
  if k <=? 0 then z
  else
    let q := Z.shiftr a k in
    let r := a - Z.shiftl q k in
    let half := 2 ^ (k - 1) in
    let q' := if (half <? r) || ((r =? half) && Z.odd q) then q + 1 else q in
    Z.sgn z * Z.shiftl q' k.

(** The Number value of a mathematical integer; beyond the largest double
    it is an infinity. *)
Definition toNumber (z : Z) : number :=
  let r := roundInteger z in
  if 2 ^ 1024 <=? Z.abs r then Infinity (z <? 0) else Finite r.

(** [a - b]. *)
Definition sub (a b : number) : number :=
  match a, b with
  | NaN, _ => NaN
  | _, NaN => NaN
  | Infinity s, Infinity s' => if Bool.eqb s s' then NaN else Infinity s
  | Infinity s, Finite _ => Infinity s
  | Finite _, Infinity s => Infinity (negb s)
  | Finite x, Finite y => toNumber (x - y)
  end.

(** [a < b] and [a > b]; every comparison with [NaN] is false. *)
Definition lt (a b : number) : bool :=
  match a, b with
  | NaN, _ => false
  | _, NaN => false
  | Infinity true, Infinity true => false
  | Infinity true, _ => true
  | _, Infinity true => false
  | Infinity false, _ => false
  | Finite _, Infinity false => true
  | Finite x, Finite y => x <? y
  end.

Definition gt (a b : number) : bool := lt b a.

(** *** Exceptions *)

(** The error classes of [src/errors.ts]. *)
Inductive SdkError :=
| RealtimeError (message : string)
| AuthenticationError (message : string)
| ValidationError (message : string)
| ApiError (message : string) (status : Z) (body : string).

Inductive exn :=
| RangeError (code : string)
| Sdk (e : SdkError).

Inductive completion (A : Type) :=
| Return (a : A)
| Throw (e : exn).
Arguments Return {A} a.
Arguments Throw {A} e.

(** [try { body } catch { handler }]. *)
Definition try_catch {A} (body : completion A) (handler : completion A)
  : completion A :=
  match body with Return a => Return a | Throw _ => handler end.

(** *** [crypto.timingSafeEqual] *)

(** The fixed-time comparison folds the differences of all byte pairs into
    one accumulator and looks at it only at the end. *)
Definition diffBits (a b : Buffer) : Z :=
  fold_left (fun acc p => Z.lor acc (Z.lxor (Z_of_byte (fst p)) (Z_of_byte (snd p))))
            (combine a b) 0.

(** Node throws [ERR_CRYPTO_TIMING_SAFE_EQUAL_LENGTH] (a [RangeError]) when
    the two buffers differ in byte length. *)
Definition timingSafeEqual (a b : Buffer) : completion bool :=
  if (length a =? length b)%nat
  then Return (diffBits a b =? 0)
  else Throw (RangeError "ERR_CRYPTO_TIMING_SAFE_EQUAL_LENGTH").

(* ===================================================================== *)
(** ** [src/crypto.ts] *)
(* ===================================================================== *)

Definition signRequest (secret method path body : string) (timestamp : Z)
  : string :=
  let bodyMD5 := if isEmpty body then EmptyString else md5Hex body in
  let sigString :=
    (numberToString timestamp ++ LF ++ method ++ LF ++ path ++ LF ++ bodyMD5)%string in
  hmacSha256Hex secret sigString.

Definition signChannel (secret socketId channelName : string)
  (channelData : option string) : string :=
  let sigString :=
    (if truthy channelData
     then socketId ++ ":" ++ channelName ++ ":"
          ++ match channelData with Some d => d | None => EmptyString end
     else socketId ++ ":" ++ channelName)%string in
  hmacSha256Hex secret sigString.

Definition signWebhookPayload (secret timestamp payload : string) : string :=
  let input := (timestamp ++ "." ++ payload)%string in
  hmacSha256Hex secret input.

(* ===================================================================== *)
(** ** [src/webhook.ts] *)
(* ===================================================================== *)

(** A header value: [string | string[] | undefined]. *)
Inductive HeaderValue :=
| HString (s : string)
| HArray (entries : list string)
| HUndefined.

(** The header record, as the list [Object.entries] enumerates. *)
Definition Headers := list (string * HeaderValue).

Fixpoint getHeaderCaseInsensitive (headers : Headers) (key : string)
  : option string :=
  let lowerKey := toLowerCase key in
  match headers with
  | [] => None
  | (k, v) :: rest =>
      if (toLowerCase k =? lowerKey)%string then
        match v with
        | HString s => Some s
        | HArray entries => find (fun _ => true) entries
        | HUndefined => None
        end
      else getHeaderCaseInsensitive rest key
  end.

(** The freshness test of [verifyWebhook], lines 60-72: [true] when the
    function goes on to the signature, [false] when it returns [false].
    [clock] is the value of [Date.now()], an integer below 2^53, for which
    the division by 1000 and the floor are exact. *)
Definition fresh (timestamp : string) (maxAge : option number) (clock : Z)
  : bool :=
  match maxAge with
  | None => true
  | Some maxAge =>
      match parseInt timestamp with
      | None => false
      | Some mathInt =>
          let webhookTime := toNumber mathInt in
          let currentTime := Finite (clock / 1000) in
          let age := sub currentTime webhookTime in
          negb (gt age maxAge || lt age (Finite 0))
      end
  end.

(** The body of the [try] block, lines 79-87. *)
Definition compareSignatures (actualSignature expectedSignature : string)
  : completion bool :=
  let actualBuffer := hexDecode actualSignature in
  let expectedBuffer := hexDecode expectedSignature in
  if negb (length actualBuffer =? length expectedBuffer)%nat
  then Return false
  else timingSafeEqual actualBuffer expectedBuffer.

Definition verifyWebhook (secret : string) (headers : Headers) (body : string)
  (maxAge : option number) (clock : Z) : completion bool :=
  match getHeaderCaseInsensitive headers "x-realtime-signature" with
  | None => Return false
  | Some signatureHeader =>
      if isEmpty signatureHeader then Return false else
      let actualSignature :=
        if startsWith signatureHeader "sha256="
        then slice 7 signatureHeader
        else signatureHeader in
      match getHeaderCaseInsensitive headers "x-realtime-timestamp" with
      | None => Return false
      | Some timestamp =>
          if isEmpty timestamp then Return false else
          if negb (fresh timestamp maxAge clock) then Return false else
          let expectedSignature := signWebhookPayload secret timestamp body in
          try_catch (compareSignatures actualSignature expectedSignature)
                    (Return false)
      end
  end.

(* ===================================================================== *)
(** ** [src/auth.ts] *)
(* ===================================================================== *)

Record ChannelAuthResponse := {
  auth : string;
  channel_data : option string
}.

Definition authenticateChannel (secret key socketId channelName : string)
  (channelData : option string) : ChannelAuthResponse :=
  let signature := signChannel secret socketId channelName channelData in
  {| auth := (key ++ ":" ++ signature)%string;
     channel_data := match channelData with
                     | Some d => Some d
                     | None => None
                     end |}.

(* ===================================================================== *)
(** ** [src/client.ts]: [trigger] and [request], up to the call of [fetch] *)
(* ===================================================================== *)

Definition DQ : string := String "034" EmptyString.

(** [JSON.stringify] of a string: [QuoteJSONString]. *)
Definition quoteChar (c : ascii) : string :=
  let n := N_of_ascii c in
  (if n =? 8 then "\b"
   else if n =? 9 then "\t"
   else if n =? 10 then "\n"
   else if n =? 12 then "\f"
   else if n =? 13 then "\r"
   else if n =? 34 then String "\" DQ
   else if n =? 92 then "\\"
   else if n <? 32 then
     String.append "\u00" (String (hexDigit (n / 16))
                                  (String (hexDigit (n mod 16)) EmptyString))
   else String c EmptyString)%N.

Fixpoint quoteChars (s : string) : string :=
  match s with
  | EmptyString => EmptyString
  | String c rest => (quoteChar c ++ quoteChars rest)%string
  end.

Definition quoteJSONString (s : string) : string :=
  (DQ ++ quoteChars s ++ DQ)%string.

(** The values stored in the request body of [trigger]. *)
Inductive JsonValue :=
| JString (s : string)
| JStrings (l : list string).

Definition stringifyValue (v : JsonValue) : string :=
  match v with
  | JString s => quoteJSONString s
  | JStrings l => ("[" ++ String.concat "," (map quoteJSONString l) ++ "]")%string
  end.

(** [JSON.stringify] of an object of such values, properties in insertion
    order. *)
Definition stringifyObject (o : list (string * JsonValue)) : string :=
  ("{" ++ String.concat ","
            (map (fun kv => quoteJSONString (fst kv) ++ ":" ++ stringifyValue (snd kv)) o)
       ++ "}")%string.

Record RealtimeOptions := {
  opt_appId : string;
  opt_key : string;
  opt_secret : string;
  opt_cluster : string
}.

Record TriggerParams := {
  name : string;
  channel : option string;
  channels : option (list string);
  data : string;
  socketId : option string
}.

(** The private fields of the class [Apinator]. *)
Record Apinator := {
  appId : string;
  key : string;
  secret : string;
  host : string
}.

Definition new_Apinator (options : RealtimeOptions) : Apinator :=
  {| appId := opt_appId options;
     key := opt_key options;
     secret := opt_secret options;
     host := ("https://ws-" ++ opt_cluster options ++ ".apinator.io")%string |}.

(** The arguments of a call [fetch(url, { method, headers, body })]. *)
Record FetchCall := {
  fetch_url : string;
  fetch_method : string;
  fetch_headers : list (string * string);
  fetch_body : option string
}.

(** How far an async method gets before it first yields: it has thrown, or
    it has called [fetch] and awaits the response. *)
Inductive progress :=
| Rejects (e : SdkError)
| Fetches (call : FetchCall).

(** [path.split("?")[0]]. *)
Fixpoint beforeQuery (path : string) : string :=
  match path with
  | EmptyString => EmptyString
  | String c rest =>
      if (c =? "?")%char then EmptyString else String c (beforeQuery rest)
  end.

(** [request], lines 385-411: the call of [fetch] it makes.  [clock] is the
    value of [Date.now()]. *)
Definition request (self : Apinator) (method path body : string) (clock : Z)
  : FetchCall :=
  let timestamp := clock / 1000 in
  let signPath := beforeQuery path in
  let signature := signRequest (secret self) method signPath body timestamp in
  let url := (host self ++ path)%string in
  let headers :=
    [("X-Realtime-Key", key self);
     ("X-Realtime-Timestamp", numberToString timestamp);
     ("X-Realtime-Signature", signature)]
    ++ (if negb (isEmpty body) then [("Content-Type", "application/json")] else []) in
  {| fetch_url := url;
     fetch_method := method;
     fetch_headers := headers;
     fetch_body := if negb (isEmpty body) then Some body else None |}.

Definition orEmpty (o : option string) : string :=
  match o with Some s => s | None => EmptyString end.

Definition trigger (self : Apinator) (params : TriggerParams) (clock : Z)
  : progress :=
  if truthy (channel params) && truthyArray (channels params) then
    Rejects (ValidationError
               "Cannot specify both 'channel' and 'channels' parameters")
  else if negb (truthy (channel params)) && negb (truthyArray (channels params)) then
    Rejects (ValidationError
               "Must specify either 'channel' or 'channels' parameter")
  else
    let body :=
      [("name", JString (name params)); ("data", JString (data params))]
      ++ (if truthy (channel params)
          then [("channel", JString (orEmpty (channel params)))] else [])
      ++ (match channels params with
          | Some l => [("channels", JStrings l)]
          | None => []
          end)
      ++ (if truthy (socketId params)
          then [("socket_id", JString (orEmpty (socketId params)))] else []) in
    let bodyString := stringifyObject body in
    let path := ("/apps/" ++ appId self ++ "/events")%string in
    Fetches (request self "POST" path bodyString clock).

(* ===================================================================== *)
(** ** [src/client.ts]: the read endpoints and the wrappers *)
(* ===================================================================== *)

(** [encodeURIComponent], on the UTF-8 bytes: letters, digits and the marks
    [- _ . ! ~ * ' ( )] are kept, every other byte becomes [%XX] with
    uppercase digits. *)
Definition isUnreserved (c : ascii) : bool :=
  let n := N_of_ascii c in
  (((65 <=? n) && (n <=? 90)) || ((97 <=? n) && (n <=? 122))
   || ((48 <=? n) && (n <=? 57))
   || (n =? 45) || (n =? 95) || (n =? 46) || (n =? 33) || (n =? 126)
   || (n =? 42) || (n =? 39) || (n =? 40) || (n =? 41))%N.

Definition upperHexDigit (n : N) : ascii :=
  (if n <? 10 then ascii_of_N (48 + n) else ascii_of_N (55 + n))%N.

Fixpoint encodeURIComponent (s : string) : string :=
  match s with
  | EmptyString => EmptyString
  | String c rest =>
      if isUnreserved c then String c (encodeURIComponent rest)
      else
        let n := N_of_ascii c in
        String "%" (String (upperHexDigit (n / 16))
                      (String (upperHexDigit (n mod 16))
                              (encodeURIComponent rest)))
  end.

(** [getChannels], lines 309-317: the call of [fetch] it makes. *)
Definition getChannels (self : Apinator) (prefix : option string) (clock : Z)
  : FetchCall :=
  let path := ("/apps/" ++ appId self ++ "/channels")%string in
  let path :=
    if truthy prefix
    then (path ++ "?filter_by_prefix=" ++ encodeURIComponent (orEmpty prefix))%string
    else path in
  request self "GET" path EmptyString clock.

(** [getChannel], lines 341-345: the call of [fetch] it makes. *)
Definition getChannel (self : Apinator) (channelName : string) (clock : Z)
  : FetchCall :=
  let encodedChannel := encodeURIComponent channelName in
  let path := ("/apps/" ++ appId self ++ "/channels/" ++ encodedChannel)%string in
  request self "GET" path EmptyString clock.

(** The methods [authenticateChannel] and [verifyWebhook] of the class,
    lines 282-288 and 374-380. *)
Definition Apinator_authenticateChannel (self : Apinator)
  (socketId channelName : string) (channelData : option string)
  : ChannelAuthResponse :=
  authenticateChannel (secret self) (key self) socketId channelName channelData.

Definition Apinator_verifyWebhook (self : Apinator) (headers : Headers)
  (body : string) (maxAge : option number) (clock : Z) : completion bool :=
  verifyWebhook (secret self) headers body maxAge clock.

(** What [fetch] and [response.text()] settle to: a rejection, with the
    message the [catch] clause reads from it, or a response. *)
Inductive FetchResult :=
| FetchRejects (message : string)
| FetchResponds (ok : bool) (status : Z) (responseText : string).

(** [a || b] on strings. *)
Definition orElse (a b : string) : string := if isEmpty a then b else a.

Definition messageOf (e : SdkError) : string :=
  match e with
  | RealtimeError m => m
  | AuthenticationError m => m
  | ValidationError m => m
  | ApiError m _ _ => m
  end.

Section Transport.

(** [JSON.parse] and the values it yields are left open: [None] is the
    [SyntaxError]; [stringProperty v p] is the value of [v[p]] when it has
    type string, and [None] otherwise, also for the [null] on which the
    property access throws into the same [catch]. *)
Variable Json : Type.
Variable emptyObject : Json.
Variable JSON_parse : string -> option Json.
Variable stringProperty : Json -> string -> option string.

(** Lines 416-427: the message taken from an RFC 7807 body. *)
Definition errorMessageOf (responseText : string) : string :=
  match JSON_parse responseText with
  | None => responseText
  | Some problem =>
      if truthy (stringProperty problem "detail")
      then orEmpty (stringProperty problem "detail")
      else if truthy (stringProperty problem "title")
      then orEmpty (stringProperty problem "title")
      else responseText
  end.

(** [request], lines 406-471: what the promise settles to, given what the
    network did. *)
Definition settle (result : FetchResult) : completion Json :=
  match result with
  | FetchRejects message =>
      Throw (Sdk (RealtimeError ("Network error: " ++ message)))
  | FetchResponds ok status responseText =>
      if negb ok then
        let errorMessage := errorMessageOf responseText in
        if (status =? 401) || (status =? 403) then
          Throw (Sdk (AuthenticationError
                        (orElse errorMessage "Authentication failed")))
        else if (status =? 400) || (status =? 422) then
          Throw (Sdk (ValidationError (orElse errorMessage "Validation failed")))
        else
          Throw (Sdk (ApiError
                        (orElse errorMessage
                                ("Request failed with status "
                                   ++ numberToString status))
                        status responseText))
      else if isEmpty responseText then Return emptyObject
      else
        match JSON_parse responseText with
        | Some value => Return value
        | None =>
            Throw (Sdk (RealtimeError
                          ("Failed to parse response: " ++ responseText)))
        end
  end.

(** [trigger] as a whole: the validation, the request over [network], and
    the result dropped. *)
Definition triggerSettled (self : Apinator) (params : TriggerParams)
  (clock : Z) (network : FetchCall -> FetchResult) : completion unit :=
  match trigger self params clock with
  | Rejects e => Throw (Sdk e)
  | Fetches call =>
      match settle (network call) with
      | Return _ => Return tt
      | Throw e => Throw e
      end
  end.

End Transport.

(* ===================================================================== *)
(** ** Auxiliary notions *)
(* ===================================================================== *)

(** The string a header value resolves to. *)
Definition resolved (v : HeaderValue) : option string :=
  match v with
  | HString s => Some s
  | HArray entries => hd_error entries
  | HUndefined => None
  end.

(** Two header records that differ in the letter case of the names and in
    the shape of the values only. *)
Definition sameHeaders (h1 h2 : Headers) : Prop :=
  Forall2 (fun e1 e2 => toLowerCase (fst e1) = toLowerCase (fst e2)
                        /\ resolved (snd e1) = resolved (snd e2)) h1 h2.

(** The first [n] characters. *)
Fixpoint take (n : nat) (s : string) : string :=
  match n, s with
  | S n', String c rest => String c (take n' rest)
  | _, _ => EmptyString
  end.

Fixpoint hasChar (c : ascii) (s : string) : bool :=
  match s with
  | EmptyString => false
  | String d rest => (d =? c)%char || hasChar c rest
  end.

(** The value of a decimal numeral read from the left, after [acc]. *)
Fixpoint uintValue (acc : Z) (d : Decimal.uint) : Z :=
  match d with
  | Decimal.Nil => acc
  | Decimal.D0 d => uintValue (10 * acc + 0) d
  | Decimal.D1 d => uintValue (10 * acc + 1) d
  | Decimal.D2 d => uintValue (10 * acc + 2) d
  | Decimal.D3 d => uintValue (10 * acc + 3) d
  | Decimal.D4 d => uintValue (10 * acc + 4) d
  | Decimal.D5 d => uintValue (10 * acc + 5) d
  | Decimal.D6 d => uintValue (10 * acc + 6) d
  | Decimal.D7 d => uintValue (10 * acc + 7) d
  | Decimal.D8 d => uintValue (10 * acc + 8) d
  | Decimal.D9 d => uintValue (10 * acc + 9) d
  end.

(** Lookup in the header list of an outgoing request. *)
Fixpoint headerOf (name : string) (headers : list (string * string))
  : option string :=
  match headers with
  | [] => None
  | (k, v) :: rest => if (k =? name)%string then Some v else headerOf name rest
  end.

(* ===================================================================== *)
(** ** Notions of the specification *)
(* ===================================================================== *)

Module Spec.

(** The canonical strings, in the words of the specification, over the
    digests and the decimal numerals themselves rather than over the
    functions of [crypto.ts]. *)

(** The base-10 text of an integer. *)
Definition decimal (n : Z) : string := NilZero.string_of_int (Z.to_int n).

Definition bodyDigest (body : string) : string :=
  if (body =? EmptyString)%string then EmptyString
  else hexEncode (MD5.digest (utf8 body)).

Definition requestString (timestamp : Z) (method path digest : string)
  : string :=
  String.concat LF [decimal timestamp; method; path; digest].

Definition channelAuthString (socketId channelName : string)
  (channelData : option string) : string :=
  match channelData with
  | None => String.concat ":" [socketId; channelName]
  | Some d => String.concat ":" [socketId; channelName; d]
  end.

End Spec.

(** What the specification calls valid hex: an even number of characters,
    all of them hexadecimal digits. *)
Fixpoint allHex (s : string) : bool :=
  match s with
  | EmptyString => true
  | String c rest =>
      match unhex c with Some _ => allHex rest | None => false end
  end.

Definition isValidHex (s : string) : bool :=
  Nat.even (String.length s) && allHex s.

(** Lowercase hexadecimal digits only. *)
Definition isLowerHexDigit (c : ascii) : bool :=
  let n := N_of_ascii c in
  (((48 <=? n) && (n <=? 57)) || ((97 <=? n) && (n <=? 102)))%N.

Fixpoint isLowerHex (s : string) : bool :=
  match s with
  | EmptyString => true
  | String c rest => isLowerHexDigit c && isLowerHex rest
  end.

Definition Buffer_eq_dec : forall a b : Buffer, {a = b} + {a <> b} :=
  list_eq_dec Byte.byte_eq_dec.

Definition Buffer_eqb (a b : Buffer) : bool :=
  if Buffer_eq_dec a b then true else false.

(** The claimed signature after the optional prefix is removed. *)
Definition claimed (signatureHeader : string) : string :=
  if startsWith signatureHeader "sha256=" then slice 7 signatureHeader
  else signatureHeader.

(** The header record of a delivery: the signature header, then the
    timestamp header. *)
Definition webhookHeaders (signature timestamp : string) : Headers :=
  [("x-realtime-signature", HString signature);
   ("x-realtime-timestamp", HString timestamp)].

(* ===================================================================== *)
(** ** Sample data *)
(* ===================================================================== *)

Definition quoted (s : string) : string := (DQ ++ s ++ DQ)%string.

Definition sampleEvent : string :=
  ("{" ++ quoted "event" ++ ":" ++ quoted "channel_occupied" ++ ","
       ++ quoted "channel" ++ ":" ++ quoted "test" ++ "}")%string.

(** [n] copies of one character. *)
Fixpoint copies (n : nat) (c : ascii) : string :=
  match n with O => EmptyString | S n' => String c (copies n' c) end.

Definition sampleSignature : string :=
  signWebhookPayload "my-secret-key" "1700000000" sampleEvent.

Definition staleHeaders : Headers :=
  webhookHeaders ("sha256=" ++ sampleSignature) "1700000000".

Definition wordHeaders : Headers :=
  webhookHeaders (signWebhookPayload "my-secret-key" "not-a-number" sampleEvent)
                 "not-a-number".

Definition bothSelectors : string :=
  "Cannot specify both 'channel' and 'channels' parameters".

Definition noSelector : string :=
  "Must specify either 'channel' or 'channels' parameter".

Definition sampleClient : Apinator :=
  new_Apinator {| opt_appId := "test-app-id"; opt_key := "test-key";
                  opt_secret := "test-secret"; opt_cluster := "eu" |}.

Definition twoSelectors : TriggerParams :=
  {| name := "test-event"; channel := Some "test-channel";
     channels := Some ["channel-1"]; data := "{}"; socketId := None |}.

Definition emptyChannelAndChannels : TriggerParams :=
  {| name := "test-event"; channel := Some EmptyString;
     channels := Some ["channel-1"]; data := "{}"; socketId := None |}.

(** Sample deliveries and requests for the properties below. *)
Definition mixedCaseHeaders : Headers :=
  [("X-ReAlTiMe-SiGnAtUrE", HArray [("sha256=" ++ sampleSignature)%string; "ignored"]);
   ("x-REALTIME-timestamp", HArray ["1700000000"])].

Definition shadowedHeaders : Headers :=
  [("content-type", HString "application/json");
   ("X-Realtime-Signature", HUndefined);
   ("x-realtime-signature", HString sampleSignature);
   ("x-realtime-timestamp", HString "1700000000")].

Definition upperSignature : string :=
  "79BBC868F72034BF5D7EA77727D6C705F0EDC6DE24BDCB51DD52CA05C11617F8".

(** Whether a string holds ASCII characters only. *)
Fixpoint isAscii (s : string) : bool :=
  match s with
  | EmptyString => true
  | String c rest => (N_of_ascii c <? 128)%N && isAscii rest
  end.

(** Whether a string starts with a decimal digit. *)
Definition startsWithDigit (s : string) : bool :=
  match s with
  | EmptyString => false
  | String c _ => match digitValue c with Some _ => true | None => false end
  end.

Definition questionClient : Apinator :=
  new_Apinator {| opt_appId := "app"; opt_key := "test-key";
                  opt_secret := "test-secret"; opt_cluster := "eu" |}.

Definition oneSelector : TriggerParams :=
  {| name := "test-event"; channel := Some "test-channel"; channels := None;
     data := "{}"; socketId := None |}.

(** A network that answers every request with an empty 200, and a parser
    that accepts nothing. *)
Definition emptyOk (call : FetchCall) : FetchResult :=
  FetchResponds true 200 EmptyString.

Definition parsesNothing (text : string) : option unit := None.

Definition noProperty (value : unit) (property : string) : option string :=
  None.



(* ===================================================================== *)
(** ** Published vectors *)
(* ===================================================================== *)

(** The digests agree with the values fixed in [test/crypto.test.ts]. *)

Example md5Hex_hello : md5Hex "hello" = "5d41402abc4b2a76b9719d911017c592".
Proof. vm_compute. reflexivity. Qed.

Example md5Hex_empty :
  md5Hex EmptyString = "d41d8cd98f00b204e9800998ecf8427e".
Proof. vm_compute. reflexivity. Qed.

Example signRequest_with_body :
  signRequest "my-secret-key" "POST" "/apps/123/events"
              ("{" ++ quoted "name" ++ ":" ++ quoted "test" ++ "}")%string
              1700000000
  = "b4e3bd1aa726fe02d0c28b4316e7e1d507d11971fea0f5cfd3cd71b101dc325c".
Proof. vm_compute. reflexivity. Qed.

Example signChannel_private :
  signChannel "my-secret-key" "12345.67890" "private-chat" None
  = "a938cf2c05ce33130efb37b4b730d4e3c0a5bef21ce68604d87684efdcb68ec3".
Proof. vm_compute. reflexivity. Qed.

Example signChannel_presence :
  signChannel "my-secret-key" "12345.67890" "presence-chat"
              (Some ("{" ++ quoted "user_id" ++ ":" ++ quoted "user1" ++ "}")%string)
  = "34138811c35c4adda7a7e76f03ce5d54908df7d2b51748081b405a8df4f1a217".
Proof. vm_compute. reflexivity. Qed.

Example signWebhookPayload_vector :
  signWebhookPayload "my-secret-key" "1700000000" sampleEvent
  = "79bbc868f72034bf5d7ea77727d6c705f0edc6de24bdcb51dd52ca05c11617f8".
Proof. vm_compute. reflexivity. Qed.

(** A key longer than one block and messages of several blocks. *)
Example hmac_long_key :
  hmacSha256Hex (copies 100 "k") (copies 200 "m")
  = "a6bca6f4482167eeffadc0449a346c21ffe8f96177eceecaeb182b610f6128c8".
Proof. vm_compute. reflexivity. Qed.

Example md5Hex_two_blocks :
  md5Hex (copies 120 "a") = "5f61c0ccad4cac44c75ff505e1f1e537".
Proof. vm_compute. reflexivity. Qed.

(* ===================================================================== *)
(** ** Hexadecimal text *)
(* ===================================================================== *)

Lemma byte_digits (x : byte) :
  let n := Byte.to_N x in
  unhex (hexDigit (n / 16)) = Some (n / 16)%N
  /\ unhex (hexDigit (n mod 16)) = Some (n mod 16)%N
  /\ byte_of_ascii (ascii_of_N (16 * (n / 16) + n mod 16)) = x
  /\ isLowerHexDigit (hexDigit (n / 16)) = true
  /\ isLowerHexDigit (hexDigit (n mod 16)) = true
  /\ hexDigit (n / 16) <> "s"%char.
Proof.
  destruct x; vm_compute; repeat split; discriminate.
Qed.

Lemma hexDecode_hexEncode (b : Buffer) : hexDecode (hexEncode b) = b.
Proof.
  induction b as [|x rest IH]; [reflexivity|].
  destruct (byte_digits x) as (Hhi & Hlo & Hx & _).
  cbn [hexEncode hexDecode]. rewrite Hhi, Hlo, Hx, IH. reflexivity.
Qed.

Lemma hexEncode_length (b : Buffer) :
  String.length (hexEncode b) = (2 * length b)%nat.
Proof.
  induction b as [|x rest IH]; [reflexivity|].
  cbn [hexEncode String.length length]. rewrite IH. lia.
Qed.

Lemma hexEncode_lower (b : Buffer) : isLowerHex (hexEncode b) = true.
Proof.
  induction b as [|x rest IH]; [reflexivity|].
  destruct (byte_digits x) as (_ & _ & _ & Hhi & Hlo & _).
  cbn [hexEncode isLowerHex]. rewrite Hhi, Hlo, IH. reflexivity.
Qed.

Lemma hexEncode_no_prefix (b : Buffer) :
  startsWith (hexEncode b) "sha256=" = false.
Proof.
  destruct b as [|x rest]; [reflexivity|].
  destruct (byte_digits x) as (_ & _ & _ & _ & _ & Hs).
  cbn [hexEncode]. unfold startsWith. cbn [String.prefix].
  destruct (ascii_dec "s" (hexDigit (Byte.to_N x / 16))) as [E|_];
    [congruence | reflexivity].
Qed.

Lemma hexEncode_nonempty (x : byte) (rest : Buffer) :
  isEmpty (hexEncode (x :: rest)) = false.
Proof. reflexivity. Qed.

(* ===================================================================== *)
(** ** Shape of the digests *)
(* ===================================================================== *)

Lemma SHA256_output_length (s : SHA256.state) :
  length (SHA256.output s) = 32%nat.
Proof. reflexivity. Qed.

Lemma SHA256_digest_length (msg : Buffer) :
  length (SHA256.digest msg) = 32%nat.
Proof. apply SHA256_output_length. Qed.

Lemma HMAC_sha256_length (k msg : Buffer) : length (HMAC.sha256 k msg) = 32%nat.
Proof. apply SHA256_digest_length. Qed.

(** Every signature is the hexadecimal text of a 32-byte tag. *)
Lemma hmacSha256Hex_shape (secret msg : string) :
  exists tag : Buffer,
    hmacSha256Hex secret msg = hexEncode tag /\ length tag = 32%nat.
Proof.
  exists (HMAC.sha256 (utf8 secret) (utf8 msg)).
  split; [reflexivity | apply HMAC_sha256_length].
Qed.

Lemma hmacSha256Hex_length (secret msg : string) :
  String.length (hmacSha256Hex secret msg) = 64%nat.
Proof.
  destruct (hmacSha256Hex_shape secret msg) as (tag & -> & Hlen).
  rewrite hexEncode_length, Hlen. reflexivity.
Qed.

Lemma hmacSha256Hex_lower (secret msg : string) :
  isLowerHex (hmacSha256Hex secret msg) = true.
Proof. apply hexEncode_lower. Qed.

(* ===================================================================== *)
(** ** The fixed-time comparison *)
(* ===================================================================== *)

Lemma diffBits_acc (a b : Buffer) (acc : Z) :
  fold_left (fun acc p => Z.lor acc (Z.lxor (Z_of_byte (fst p)) (Z_of_byte (snd p))))
            (combine a b) acc
  = Z.lor acc (diffBits a b).
Proof.
  unfold diffBits. revert b acc.
  induction a as [|x a IH]; intros [|y b] acc; cbn [combine fold_left];
    try (now rewrite Z.lor_0_r).
  rewrite IH, (IH b (Z.lor 0 _)), Z.lor_0_l, Z.lor_assoc. reflexivity.
Qed.

Lemma diffBits_cons (x y : byte) (a b : Buffer) :
  diffBits (x :: a) (y :: b)
  = Z.lor (Z.lxor (Z_of_byte x) (Z_of_byte y)) (diffBits a b).
Proof.
  unfold diffBits at 1. cbn [combine fold_left].
  rewrite diffBits_acc, Z.lor_0_l. reflexivity.
Qed.

Lemma Z_of_byte_inj (x y : byte) : Z_of_byte x = Z_of_byte y -> x = y.
Proof.
  unfold Z_of_byte. intros H. apply N2Z.inj in H.
  assert (Some x = Some y) as E; [|now inversion E].
  rewrite <- (Byte.of_to_N x), <- (Byte.of_to_N y), H. reflexivity.
Qed.

(** On buffers of one length the accumulator is zero exactly when the
    buffers are equal. *)
Lemma diffBits_zero (a b : Buffer) :
  length a = length b -> (diffBits a b = 0 <-> a = b).
Proof.
  revert b. induction a as [|x a IH]; intros [|y b] Hlen;
    try discriminate; [split; reflexivity|].
  injection Hlen as Hlen. rewrite diffBits_cons, Z.lor_eq_0_iff.
  rewrite Z.lxor_eq_0_iff, (IH b Hlen). split.
  - intros [Hx ->]. apply Z_of_byte_inj in Hx. now subst.
  - intros E. injection E as -> ->. split; reflexivity.
Qed.

Lemma timingSafeEqual_refl (a : Buffer) : timingSafeEqual a a = Return true.
Proof.
  unfold timingSafeEqual. rewrite Nat.eqb_refl.
  replace (diffBits a a) with 0; [reflexivity|].
  symmetry. now apply diffBits_zero.
Qed.

Lemma timingSafeEqual_same_length (a b : Buffer) :
  length a = length b -> timingSafeEqual a b = Return (Buffer_eqb a b).
Proof.
  intros Hlen. unfold timingSafeEqual, Buffer_eqb.
  rewrite Hlen, Nat.eqb_refl. f_equal.
  destruct (Buffer_eq_dec a b) as [E|N].
  - apply Z.eqb_eq. now apply diffBits_zero.
  - apply Z.eqb_neq. intros H. apply N. now apply diffBits_zero.
Qed.

(** The [try] block of [verifyWebhook] never reaches its [catch]: the
    length test comes before the comparison that could throw. *)
Lemma compareSignatures_returns (actual expected : string) :
  compareSignatures actual expected
  = Return (Buffer_eqb (hexDecode actual) (hexDecode expected)).
Proof.
  unfold compareSignatures.
  destruct (length (hexDecode actual) =? length (hexDecode expected))%nat eqn:E;
    cbn [negb].
  - apply Nat.eqb_eq in E. now apply timingSafeEqual_same_length.
  - f_equal. unfold Buffer_eqb.
    destruct (Buffer_eq_dec _ _) as [H|_]; [|reflexivity].
    rewrite H, Nat.eqb_refl in E. discriminate.
Qed.

(* ===================================================================== *)
(** ** The webhook verifier *)
(* ===================================================================== *)

Lemma webhookHeaders_signature (sig ts : string) :
  getHeaderCaseInsensitive (webhookHeaders sig ts) "x-realtime-signature"
  = Some sig.
Proof. reflexivity. Qed.

Lemma webhookHeaders_timestamp (sig ts : string) :
  getHeaderCaseInsensitive (webhookHeaders sig ts) "x-realtime-timestamp"
  = Some ts.
Proof. reflexivity. Qed.

(** The verdict once both headers are located. *)
Lemma verifyWebhook_located (secret : string) (headers : Headers)
  (body : string) (maxAge : option number) (clock : Z) (sigH ts : string) :
  getHeaderCaseInsensitive headers "x-realtime-signature" = Some sigH ->
  getHeaderCaseInsensitive headers "x-realtime-timestamp" = Some ts ->
  verifyWebhook secret headers body maxAge clock
  = Return (negb (isEmpty sigH) && negb (isEmpty ts)
            && fresh ts maxAge clock
            && Buffer_eqb (hexDecode (claimed sigH))
                          (hexDecode (signWebhookPayload secret ts body))).
Proof.
  intros Hsig Hts. unfold verifyWebhook. rewrite Hsig, Hts.
  destruct (isEmpty sigH); [reflexivity|].
  destruct (isEmpty ts); [reflexivity|].
  destruct (fresh ts maxAge clock); [|reflexivity].
  cbn [negb andb]. rewrite compareSignatures_returns. reflexivity.
Qed.

Lemma isEmpty_false (s : string) : s <> EmptyString -> isEmpty s = false.
Proof. destruct s; [congruence | reflexivity]. Qed.

Lemma Buffer_eqb_refl (b : Buffer) : Buffer_eqb b b = true.
Proof. unfold Buffer_eqb. destruct (Buffer_eq_dec b b); congruence. Qed.

Lemma tag_nonempty (tag : Buffer) :
  length tag = 32%nat -> exists x rest, tag = x :: rest.
Proof. destruct tag as [|x rest]; [discriminate | eauto]. Qed.

(** C1, as amended.  Webhook round trip: for every secret, every NON-EMPTY
    timestamp string and every body, the signature made by
    [signWebhookPayload], put in the [x-realtime-signature] header bare or
    behind the prefix [sha256=], next to the timestamp in the
    [x-realtime-timestamp] header, is accepted by [verifyWebhook] when no
    maximum age is given, whatever the clock shows. *)
Theorem webhook_round_trip (secret ts body : string) (clock : Z) :
  ts <> EmptyString ->
  verifyWebhook secret
    (webhookHeaders (signWebhookPayload secret ts body) ts) body None clock
  = Return true
  /\ verifyWebhook secret
       (webhookHeaders ("sha256=" ++ signWebhookPayload secret ts body) ts)
       body None clock
     = Return true.
Proof.
  intros Hts. apply isEmpty_false in Hts.
  unfold signWebhookPayload.
  destruct (hmacSha256Hex_shape secret (ts ++ "." ++ body)) as (tag & Htag & Hlen).
  destruct (tag_nonempty tag Hlen) as (x & rest & ->).
  split.
  - rewrite (verifyWebhook_located _ _ _ _ _ _ _
               (webhookHeaders_signature _ _) (webhookHeaders_timestamp _ _)).
    unfold signWebhookPayload, claimed. rewrite Htag, Hts.
    rewrite hexEncode_no_prefix, hexEncode_nonempty, Buffer_eqb_refl.
    reflexivity.
  - rewrite (verifyWebhook_located _ _ _ _ _ _ _
               (webhookHeaders_signature _ _) (webhookHeaders_timestamp _ _)).
    unfold signWebhookPayload, claimed. rewrite Htag, Hts.
    change (startsWith ("sha256=" ++ hexEncode (x :: rest)) "sha256=") with true.
    change (slice 7 ("sha256=" ++ hexEncode (x :: rest)))
      with (hexEncode (x :: rest)).
    rewrite Buffer_eqb_refl. reflexivity.
Qed.

(** The round trip of the delivery fixed in [test/webhook.test.ts]. *)
Lemma webhook_round_trip_witness :
  verifyWebhook "my-secret-key"
    (webhookHeaders (signWebhookPayload "my-secret-key" "1700000000" sampleEvent)
                    "1700000000")
    sampleEvent None 0
  = Return true.
Proof.
  refine (proj1 (webhook_round_trip "my-secret-key" "1700000000" sampleEvent 0 _)).
  discriminate.
Defined.

(** C1, as stated, fails at the empty timestamp: line 55 of [webhook.ts]
    returns [false] for a timestamp header that is the empty string. *)
Lemma webhook_round_trip_empty_timestamp :
  verifyWebhook "my-secret-key"
    (webhookHeaders
       (signWebhookPayload "my-secret-key" EmptyString sampleEvent)
       EmptyString)
    sampleEvent None 0
  = Return false.
Proof. vm_compute. reflexivity. Qed.

(** *** Malformed signatures *)

(** The part of the hex-decoding rule that the code keeps: signatures whose
    decoded lengths differ are rejected before the comparison is called. *)
Lemma compareSignatures_length_mismatch (actual expected : string) :
  length (hexDecode actual) <> length (hexDecode expected) ->
  compareSignatures actual expected = Return false.
Proof.
  intros H. unfold compareSignatures.
  apply Nat.eqb_neq in H. rewrite H. reflexivity.
Qed.

(** C3, evaluated at the failing inputs.  A claimed signature that is the
    expected one followed by two characters that are not hexadecimal digits,
    or by a single extra digit, is not valid hex, and [verifyWebhook] accepts
    it all the same: [Buffer.from(_, "hex")] drops the malformed tail, the
    decoded lengths agree and the comparison is reached and succeeds. *)
Theorem malformed_hex_suffix_accepted :
  isValidHex (sampleSignature ++ "zz") = false
  /\ isValidHex (sampleSignature ++ "0") = false
  /\ verifyWebhook "my-secret-key"
       (webhookHeaders (sampleSignature ++ "zz") "1700000000")
       sampleEvent None 0
     = Return true
  /\ verifyWebhook "my-secret-key"
       (webhookHeaders ("sha256=" ++ sampleSignature ++ "0") "1700000000")
       sampleEvent None 0
     = Return true
  /\ timingSafeEqual (hexDecode (sampleSignature ++ "zz"))
                     (hexDecode sampleSignature)
     = Return true.
Proof. vm_compute. repeat split; reflexivity. Qed.

(** *** Freshness *)


Lemma roundInteger_safe (z : Z) : safeInteger z -> roundInteger z = z.
Proof.
  intros [Hlo Hhi]. unfold roundInteger.
  replace (Z.log2 (Z.abs z) - 52 <=? 0) with true; [reflexivity|].
  symmetry. apply Z.leb_le.
  destruct (Z.eq_dec z 0) as [->|Hz]; [cbn; lia|].
  assert (Z.log2 (Z.abs z) < 53); [|lia].
  apply Z.log2_lt_pow2; lia.
Qed.

Lemma toNumber_safe (z : Z) : safeInteger z -> toNumber z = Finite z.
Proof.
  intros Hz. unfold toNumber. rewrite (roundInteger_safe z Hz).
  replace (2 ^ 1024 <=? Z.abs z) with false; [reflexivity|].
  symmetry. apply Z.leb_gt. destruct Hz as [Hlo Hhi].
  assert (2 ^ 53 < 2 ^ 1024) by (apply Z.pow_lt_mono_r; lia). lia.
Qed.

(** On safe integers the age is the exact difference. *)
Lemma sub_safe (x y : Z) :
  safeInteger y -> safeInteger (x - y) ->
  sub (Finite x) (toNumber y) = Finite (x - y).
Proof.
  intros Hy Hd. rewrite (toNumber_safe y Hy). cbn [sub].
  now apply toNumber_safe.
Qed.






(** Beyond the safe integers the age is the rounded one: [-(2^53 + 1)]
    parses to [-2^53], and the age computed from it does not exceed a
    maximum that the exact difference would exceed by one. *)
Example rounded_timestamp_fresh :
  option_map toNumber (parseInt "-9007199254740993")
  = Some (Finite (-9007199254740992))
  /\ 1700000100 - -9007199254740993 > 9007200954741092
  /\ fresh "-9007199254740993" (Some (Finite 9007200954741092)) 1700000100000
     = true.
Proof. vm_compute. repeat split; reflexivity. Qed.

(** Without a maximum age a timestamp that is not a number verifies, as
    long as the signature was made over the same string. *)
Example word_timestamp_accepted :
  parseInt "not-a-number" = None
  /\ verifyWebhook "my-secret-key" wordHeaders sampleEvent None 0
     = Return true.
Proof. vm_compute. split; reflexivity. Qed.

(** *** Totality *)

(** C7.  [verifyWebhook] returns a boolean on every input and never throws;
    the exception [timingSafeEqual] raises on buffers of different lengths
    is never raised, since the comparison returns on every pair of
    signatures.  The three signing operations return on every input, and
    what they return is a signature: 64 lowercase hexadecimal digits. *)
Theorem signing_and_verification_total :
  (forall secret headers body maxAge clock,
      exists verdict : bool,
        verifyWebhook secret headers body maxAge clock = Return verdict)
  /\ (forall actual expected,
         exists verdict : bool,
           compareSignatures actual expected = Return verdict)
  /\ (forall secret method path body timestamp,
         String.length (signRequest secret method path body timestamp) = 64%nat
         /\ isLowerHex (signRequest secret method path body timestamp) = true)
  /\ (forall secret socketId channelName channelData,
         String.length (signChannel secret socketId channelName channelData)
         = 64%nat
         /\ isLowerHex (signChannel secret socketId channelName channelData)
            = true)
  /\ (forall secret timestamp payload,
         String.length (signWebhookPayload secret timestamp payload) = 64%nat
         /\ isLowerHex (signWebhookPayload secret timestamp payload) = true).
Proof.
  split; [|split; [|repeat split]];
    try apply hmacSha256Hex_length; try apply hmacSha256Hex_lower.
  - intros secret headers body maxAge clock. unfold verifyWebhook.
    destruct (getHeaderCaseInsensitive headers "x-realtime-signature")
      as [sigH|]; [|eauto].
    destruct (isEmpty sigH); [eauto|].
    destruct (getHeaderCaseInsensitive headers "x-realtime-timestamp")
      as [ts|]; [|eauto].
    destruct (isEmpty ts); [eauto|].
    destruct (negb (fresh ts maxAge clock)); [eauto|].
    rewrite compareSignatures_returns. cbn [try_catch]. eauto.
  - intros actual expected. rewrite compareSignatures_returns. eauto.
Qed.

(** *** The clock *)

(** C8, as amended.  Without a maximum age the verdict is a function of the
    explicit arguments alone: it is the same at every reading of the clock.
    With a maximum age the verdict also depends on the wall clock, which
    [verifyWebhook] reads itself ([Date.now()]); it depends on it through the
    whole seconds only. *)
Theorem verdict_and_clock (secret : string) (headers : Headers)
  (body : string) :
  (forall clock1 clock2,
      verifyWebhook secret headers body None clock1
      = verifyWebhook secret headers body None clock2)
  /\ (forall maxAge clock1 clock2,
         clock1 / 1000 = clock2 / 1000 ->
         verifyWebhook secret headers body (Some maxAge) clock1
         = verifyWebhook secret headers body (Some maxAge) clock2).
Proof.
  split.
  - reflexivity.
  - intros maxAge clock1 clock2 Hsec.
    unfold verifyWebhook, fresh. rewrite Hsec. reflexivity.
Qed.

(** Two readings of the clock within one second. *)
Lemma verdict_and_clock_witness :
  verifyWebhook "my-secret-key" staleHeaders sampleEvent (Some (Finite 300))
                1700000100000
  = verifyWebhook "my-secret-key" staleHeaders sampleEvent (Some (Finite 300))
                  1700000100999.
Proof.
  exact (proj2 (verdict_and_clock "my-secret-key" staleHeaders sampleEvent)
               (Finite 300) 1700000100000 1700000100999 eq_refl).
Defined.

(** C8, as stated, fails: the same explicit arguments, a correctly signed
    delivery stamped 1700000000 and a maximum age of 300 seconds, are
    accepted when the clock shows 1700000100 and refused when it shows
    1700000500. *)
Lemma verdict_changes_with_clock :
  verifyWebhook "my-secret-key" staleHeaders sampleEvent (Some (Finite 300))
                1700000100000
  = Return true
  /\ verifyWebhook "my-secret-key" staleHeaders sampleEvent (Some (Finite 300))
                   1700000500000
     = Return false.
Proof. vm_compute. split; reflexivity. Qed.

(* ===================================================================== *)
(** ** Request signing *)
(* ===================================================================== *)

Lemma isEmpty_eqb (s : string) : isEmpty s = (s =? EmptyString)%string.
Proof. destruct s; reflexivity. Qed.



(* ===================================================================== *)
(** ** Channel authorisation *)
(* ===================================================================== *)

(** Where the channel data is absent or a non-empty string, the token is
    the one the specification describes. *)
Lemma authenticateChannel_supplied (secret key socketId channelName : string)
  (channelData : option string) :
  channelData <> Some EmptyString ->
  authenticateChannel secret key socketId channelName channelData
  = {| auth := key ++ ":"
               ++ hmacSha256Hex secret
                    (Spec.channelAuthString socketId channelName channelData);
       channel_data := channelData |}.
Proof.
  intros Hd. unfold authenticateChannel, signChannel, Spec.channelAuthString.
  destruct channelData as [[|c d]|]; [congruence | reflexivity | reflexivity].
Qed.

(** C10.  With the empty string as channel data, [authenticateChannel]
    returns the [auth] value it returns without channel data: the signed
    string is [socketId:channelName], the empty payload is not part of it;
    and the response still carries [channel_data], the empty string. *)
Theorem empty_channel_data_not_signed
  (secret key socketId channelName : string) :
  auth (authenticateChannel secret key socketId channelName (Some EmptyString))
  = auth (authenticateChannel secret key socketId channelName None)
  /\ signChannel secret socketId channelName (Some EmptyString)
     = hmacSha256Hex secret (socketId ++ ":" ++ channelName)
  /\ channel_data
       (authenticateChannel secret key socketId channelName (Some EmptyString))
     = Some EmptyString
  /\ channel_data
       (authenticateChannel secret key socketId channelName None)
     = None.
Proof. repeat split; reflexivity. Qed.

(** C5, evaluated at the failing input.  With the empty string supplied as
    channel data, the response carries [channel_data], but [auth] holds the
    signature of [socketId:channelName], which is not the signature of
    [socketId:channelName:] that the supplied payload calls for. *)
Theorem empty_channel_data_auth :
  auth (authenticateChannel "my-secret-key" "my-key" "12345.67890"
                            "presence-chat" (Some EmptyString))
  = ("my-key:" ++ hmacSha256Hex "my-secret-key" "12345.67890:presence-chat")%string
  /\ channel_data
       (authenticateChannel "my-secret-key" "my-key" "12345.67890"
                            "presence-chat" (Some EmptyString))
     = Some EmptyString
  /\ Spec.channelAuthString "12345.67890" "presence-chat" (Some EmptyString)
     = "12345.67890:presence-chat:"
  /\ (hmacSha256Hex "my-secret-key" "12345.67890:presence-chat"
      =? hmacSha256Hex "my-secret-key" "12345.67890:presence-chat:")%string
     = false.
Proof. vm_compute. repeat split; reflexivity. Qed.

(* ===================================================================== *)
(** ** Selector validation in [trigger] *)
(* ===================================================================== *)

(** C9, as amended.  A selector counts as given when it is truthy: [channel]
    a non-empty string, [channels] an array.  When both selectors are given,
    or neither is, [trigger] fails with a [ValidationError], a class apart
    from [AuthenticationError] and [ApiError], before [fetch] is called; a
    request is issued exactly when one selector is given. *)
Theorem trigger_selectors (self : Apinator) (params : TriggerParams)
  (clock : Z) :
  (truthy (channel params) = true ->
   truthyArray (channels params) = true ->
   trigger self params clock = Rejects (ValidationError bothSelectors))
  /\ (truthy (channel params) = false ->
      truthyArray (channels params) = false ->
      trigger self params clock = Rejects (ValidationError noSelector))
  /\ (forall call,
         trigger self params clock = Fetches call ->
         truthy (channel params) <> truthyArray (channels params))
  /\ (truthy (channel params) <> truthyArray (channels params) ->
      exists call, trigger self params clock = Fetches call)
  /\ (forall m a s b,
         ValidationError m <> AuthenticationError a
         /\ ValidationError m <> ApiError a s b).
Proof.
  unfold trigger.
  destruct (truthy (channel params)), (truthyArray (channels params));
    cbn [andb negb]; repeat split; intros; try congruence; eauto.
Qed.

(** The call of [test/client.test.ts] with both selectors. *)
Lemma trigger_selectors_witness :
  trigger sampleClient twoSelectors 1700000000123
  = Rejects (ValidationError bothSelectors).
Proof.
  exact (proj1 (trigger_selectors sampleClient twoSelectors 1700000000123)
               eq_refl eq_refl).
Defined.

(** C9, as stated, fails when [channel] is set to the empty string next to
    [channels]: both fields are set, and the request goes out, carrying the
    [channels] selector only. *)
Lemma trigger_with_empty_channel_and_channels :
  channel emptyChannelAndChannels = Some EmptyString
  /\ channels emptyChannelAndChannels = Some ["channel-1"]
  /\ trigger sampleClient emptyChannelAndChannels 1700000000123
     = Fetches
         (request sampleClient "POST" "/apps/test-app-id/events"
            (stringifyObject
               [("name", JString "test-event"); ("data", JString "{}");
                ("channels", JStrings ["channel-1"])])
            1700000000123).
Proof. repeat split; reflexivity. Qed.

(* ===================================================================== *)
(** ** Header lookup *)
(* ===================================================================== *)

Lemma find_first (entries : list string) :
  find (fun _ => true) entries = hd_error entries.
Proof. destruct entries; reflexivity. Qed.

Lemma getHeader_same (h1 h2 : Headers) (key1 key2 : string) :
  sameHeaders h1 h2 ->
  toLowerCase key1 = toLowerCase key2 ->
  getHeaderCaseInsensitive h1 key1 = getHeaderCaseInsensitive h2 key2.
Proof.
  intros Hsame Hkey.
  induction Hsame as [|[k1 v1] [k2 v2] t1 t2 [Hk Hv] _ IH]; [reflexivity|].
  cbn [getHeaderCaseInsensitive fst snd] in *.
  rewrite Hk, Hkey, IH.
  destruct (toLowerCase k2 =? toLowerCase key2)%string; [|reflexivity].
  destruct v1, v2; cbn [resolved] in Hv; rewrite ?find_first; congruence.
Qed.

(** X1.  The verdict does not depend on the letter case of the header names
    nor on whether a value comes as a string or as an array whose first
    entry is that string. *)
Theorem verdict_ignores_header_shape (secret : string) (h1 h2 : Headers)
  (body : string) (maxAge : option number) (clock : Z) :
  sameHeaders h1 h2 ->
  verifyWebhook secret h1 body maxAge clock
  = verifyWebhook secret h2 body maxAge clock.
Proof.
  intros Hsame. unfold verifyWebhook.
  rewrite (getHeader_same h1 h2 "x-realtime-signature" "x-realtime-signature"
             Hsame eq_refl).
  rewrite (getHeader_same h1 h2 "x-realtime-timestamp" "x-realtime-timestamp"
             Hsame eq_refl).
  reflexivity.
Qed.

Lemma verdict_ignores_header_shape_witness :
  verifyWebhook "my-secret-key" mixedCaseHeaders sampleEvent (Some (Finite 300))
                1700000100000
  = verifyWebhook "my-secret-key" staleHeaders sampleEvent (Some (Finite 300))
                  1700000100000.
Proof.
  refine (verdict_ignores_header_shape "my-secret-key" mixedCaseHeaders
            staleHeaders sampleEvent (Some (Finite 300)) 1700000100000 _).
  repeat constructor.
Defined.

Lemma getHeader_skip (before rest : Headers) (key : string) :
  Forall (fun entry => toLowerCase (fst entry) <> toLowerCase key) before ->
  getHeaderCaseInsensitive (before ++ rest) key
  = getHeaderCaseInsensitive rest key.
Proof.
  induction 1 as [|[k v] before Hk _ IH]; [reflexivity|].
  cbn [app getHeaderCaseInsensitive fst] in *.
  apply String.eqb_neq in Hk. rewrite Hk. exact IH.
Qed.

(** X2.  The first entry whose name matches decides, wherever it stands in
    the record: when its value is [undefined] or an empty array the
    delivery is refused, whatever entries of other names come before it and
    whatever entries, of the same name or not, follow. *)
Theorem shadowed_header_refused (secret : string) (key : string)
  (before : Headers) (name : string) (v : HeaderValue) (rest : Headers)
  (body : string) (maxAge : option number) (clock : Z) :
  key = "x-realtime-signature" \/ key = "x-realtime-timestamp" ->
  Forall (fun entry => toLowerCase (fst entry) <> key) before ->
  toLowerCase name = key ->
  resolved v = None ->
  verifyWebhook secret (before ++ (name, v) :: rest) body maxAge clock
  = Return false.
Proof.
  intros Hkey Hbefore Hname Hv.
  assert (toLowerCase key = key) as Hlow
      by (destruct Hkey as [-> | ->]; reflexivity).
  assert (getHeaderCaseInsensitive (before ++ (name, v) :: rest) key = None)
    as Hnone.
  { rewrite getHeader_skip by (rewrite Hlow; exact Hbefore).
    cbn [getHeaderCaseInsensitive].
    rewrite Hname, Hlow, String.eqb_refl.
    destruct v; cbn [resolved] in Hv; rewrite ?find_first; congruence. }
  unfold verifyWebhook. destruct Hkey as [-> | ->].
  - rewrite Hnone. reflexivity.
  - rewrite Hnone.
    destruct (getHeaderCaseInsensitive _ "x-realtime-signature") as [s|];
      [|reflexivity].
    destruct (isEmpty s); reflexivity.
Qed.

Lemma shadowed_header_refused_witness :
  verifyWebhook "my-secret-key" shadowedHeaders sampleEvent None 0
  = Return false.
Proof.
  refine (shadowed_header_refused "my-secret-key" "x-realtime-signature"
            [("content-type", HString "application/json")]
            "X-Realtime-Signature" HUndefined _ sampleEvent None 0
            _ _ eq_refl eq_refl).
  - left. reflexivity.
  - constructor; [discriminate | constructor].
Defined.

(* ===================================================================== *)
(** ** What the verifier accepts *)
(* ===================================================================== *)

Lemma unhex_lower (c : ascii) : unhex (lowerAscii c) = unhex c.
Proof. destruct c as [[] [] [] [] [] [] [] []]; reflexivity. Qed.

Lemma unhex_digit (c : ascii) (n : N) :
  unhex c = Some n -> (n < 16)%N /\ lowerAscii c = hexDigit n.
Proof.
  assert (match unhex c with
          | Some m => (m <? 16)%N && (lowerAscii c =? hexDigit m)%char
          | None => true
          end = true) as Hall
      by (destruct c as [[] [] [] [] [] [] [] []]; reflexivity).
  intros H. rewrite H in Hall. apply andb_prop in Hall as [Hlt Heq].
  split; [now apply N.ltb_lt | now apply Ascii.eqb_eq].
Qed.

(** Induction on strings two characters at a time. *)
Lemma string_pair_ind (P : string -> Prop) :
  P EmptyString ->
  (forall c, P (String c EmptyString)) ->
  (forall c1 c2 s, P s -> P (String c1 (String c2 s))) ->
  forall s, P s.
Proof.
  intros H0 H1 H2.
  assert (forall s, P s /\ forall c, P (String c s)) as H.
  { induction s as [|c s [IH1 IH2]]; split; auto. }
  intros s. apply H.
Qed.

Lemma hexDecode_lower (s : string) : hexDecode (toLowerCase s) = hexDecode s.
Proof.
  induction s as [|c|c1 c2 s IH] using string_pair_ind; try reflexivity.
  cbn [toLowerCase hexDecode]. rewrite !unhex_lower, IH. reflexivity.
Qed.

Lemma byte_of_small (n : N) :
  (n < 256)%N -> Byte.to_N (byte_of_ascii (ascii_of_N n)) = n.
Proof.
  intros Hn. apply Byte.to_of_N.
  rewrite byte_of_ascii_via_N, N_ascii_embedding by assumption.
  reflexivity.
Qed.

Lemma hexDecode_cons (s : string) (x : byte) (rest : Buffer) :
  hexDecode s = x :: rest ->
  exists c1 c2 s',
    s = String c1 (String c2 s')
    /\ lowerAscii c1 = hexDigit (Byte.to_N x / 16)
    /\ lowerAscii c2 = hexDigit (Byte.to_N x mod 16)
    /\ hexDecode s' = rest.
Proof.
  destruct s as [|c1 [|c2 s']]; try discriminate.
  cbn [hexDecode].
  destruct (unhex c1) as [hi|] eqn:Hhi; [|discriminate].
  destruct (unhex c2) as [lo|] eqn:Hlo; [|discriminate].
  intros H. injection H as Hx Hrest.
  change (byte_of_ascii (ascii_of_N (16 * hi + lo)) = x) in Hx.
  apply unhex_digit in Hhi, Hlo.
  destruct Hhi as [Hhi Hc1], Hlo as [Hlo Hc2].
  exists c1, c2, s'. rewrite Hc1, Hc2. repeat split; try assumption.
  - f_equal. rewrite <- Hx, byte_of_small by lia.
    rewrite N.mul_comm, N.div_add_l, N.div_small by lia. lia.
  - f_equal. rewrite <- Hx, byte_of_small by lia.
    rewrite N.add_comm, N.mul_comm, N.Div0.mod_add.
    symmetry. now apply N.mod_small.
Qed.

(** A string decodes to [tag] only if it starts, up to letter case, with
    the hexadecimal text of [tag]. *)
Lemma hexDecode_text (tag : Buffer) (s : string) :
  hexDecode s = tag ->
  toLowerCase (take (2 * length tag) s) = hexEncode tag.
Proof.
  revert s. induction tag as [|x rest IH]; intros s H; [reflexivity|].
  destruct (hexDecode_cons s x rest H) as (c1 & c2 & s' & -> & H1 & H2 & H').
  replace (2 * length (x :: rest))%nat with (S (S (2 * length rest)))
    by (cbn [length]; lia).
  cbn [take toLowerCase hexEncode]. rewrite H1, H2, (IH s' H'). reflexivity.
Qed.

Lemma Return_inj {A} (a b : A) : Return a = Return b -> a = b.
Proof. intros H. now injection H. Qed.

(** What a positive verdict means for the parts of the delivery. *)
Lemma verdict_true_inv (secret : string) (headers : Headers) (body : string)
  (maxAge : option number) (clock : Z) :
  verifyWebhook secret headers body maxAge clock = Return true ->
  exists sigH ts,
    getHeaderCaseInsensitive headers "x-realtime-signature" = Some sigH
    /\ getHeaderCaseInsensitive headers "x-realtime-timestamp" = Some ts
    /\ isEmpty sigH = false /\ isEmpty ts = false
    /\ fresh ts maxAge clock = true
    /\ hexDecode (claimed sigH)
       = HMAC.sha256 (utf8 secret) (utf8 (ts ++ "." ++ body)).
Proof.
  unfold verifyWebhook.
  destruct (getHeaderCaseInsensitive headers "x-realtime-signature")
    as [sigH|]; [|discriminate].
  destruct (isEmpty sigH) eqn:Es; [discriminate|].
  destruct (getHeaderCaseInsensitive headers "x-realtime-timestamp")
    as [ts|]; [|discriminate].
  destruct (isEmpty ts) eqn:Et; [discriminate|].
  destruct (fresh ts maxAge clock) eqn:Ef; [|discriminate].
  cbn [negb]. rewrite compareSignatures_returns. cbn [try_catch].
  intros H. apply Return_inj in H. unfold Buffer_eqb in H.
  destruct (Buffer_eq_dec _ _) as [E|_]; [|discriminate H].
  exists sigH, ts.
  split; [reflexivity|]. split; [reflexivity|].
  split; [assumption|]. split; [assumption|]. split; [assumption|].
  fold (claimed sigH) in E. rewrite E.
  unfold signWebhookPayload, hmacSha256Hex. apply hexDecode_hexEncode.
Qed.

(** X3.  A delivery whose signature header is ASCII text is accepted only
    if both headers are present and not empty, the timestamp passes the
    freshness test, and the claimed signature, after the optional prefix,
    starts with the 64 digits of the expected signature, in either letter
    case. *)
Theorem accepted_only_if_signed (secret : string) (headers : Headers)
  (body : string) (maxAge : option number) (clock : Z) :
  (forall sigH,
      getHeaderCaseInsensitive headers "x-realtime-signature" = Some sigH ->
      isAscii sigH = true) ->
  verifyWebhook secret headers body maxAge clock = Return true ->
  exists sigH ts,
    getHeaderCaseInsensitive headers "x-realtime-signature" = Some sigH
    /\ getHeaderCaseInsensitive headers "x-realtime-timestamp" = Some ts
    /\ sigH <> EmptyString /\ ts <> EmptyString
    /\ isAscii sigH = true
    /\ fresh ts maxAge clock = true
    /\ toLowerCase (take 64 (claimed sigH))
       = signWebhookPayload secret ts body.
Proof.
  intros Hascii H.
  destruct (verdict_true_inv _ _ _ _ _ H)
    as (sigH & ts & Hs & Ht & Es & Et & Hf & Hd).
  exists sigH, ts. repeat split; try assumption.
  - intros ->. discriminate.
  - intros ->. discriminate.
  - exact (Hascii sigH Hs).
  - pose proof (hexDecode_text _ _ Hd) as Htext.
    rewrite HMAC_sha256_length in Htext. exact Htext.
Qed.

Lemma accepted_only_if_signed_witness :
  exists sigH ts,
    getHeaderCaseInsensitive mixedCaseHeaders "x-realtime-signature" = Some sigH
    /\ getHeaderCaseInsensitive mixedCaseHeaders "x-realtime-timestamp"
       = Some ts
    /\ sigH <> EmptyString /\ ts <> EmptyString
    /\ isAscii sigH = true
    /\ fresh ts None 0 = true
    /\ toLowerCase (take 64 (claimed sigH))
       = signWebhookPayload "my-secret-key" ts sampleEvent.
Proof.
  refine (accepted_only_if_signed "my-secret-key" mixedCaseHeaders sampleEvent
            None 0 _ _).
  - intros sigH H. vm_compute in H. injection H as <-. reflexivity.
  - vm_compute. reflexivity.
Defined.

(** X4.  A claimed signature that equals the expected one up to letter case
    is accepted, given a non-empty timestamp that passes the freshness
    test. *)
Theorem any_case_signature_accepted (secret : string) (headers : Headers)
  (body : string) (maxAge : option number) (clock : Z) (sigH ts : string) :
  getHeaderCaseInsensitive headers "x-realtime-signature" = Some sigH ->
  getHeaderCaseInsensitive headers "x-realtime-timestamp" = Some ts ->
  ts <> EmptyString ->
  fresh ts maxAge clock = true ->
  toLowerCase (claimed sigH) = signWebhookPayload secret ts body ->
  verifyWebhook secret headers body maxAge clock = Return true.
Proof.
  intros Hs Ht Hne Hf Hlow.
  rewrite (verifyWebhook_located _ _ _ _ _ _ _ Hs Ht).
  rewrite (isEmpty_false _ Hne), Hf.
  rewrite <- hexDecode_lower, Hlow, Buffer_eqb_refl.
  destruct sigH; [|reflexivity].
  exfalso. pose proof (hmacSha256Hex_length secret (ts ++ "." ++ body)) as Hlen.
  unfold signWebhookPayload in Hlow. rewrite <- Hlow in Hlen. discriminate.
Qed.

Lemma any_case_signature_accepted_witness :
  verifyWebhook "my-secret-key" (webhookHeaders upperSignature "1700000000")
                sampleEvent (Some (Finite 300)) 1700000100000
  = Return true.
Proof.
  refine (any_case_signature_accepted "my-secret-key"
            (webhookHeaders upperSignature "1700000000") sampleEvent (Some (Finite 300))
            1700000100000 upperSignature "1700000000" eq_refl eq_refl _ _ _).
  - discriminate.
  - reflexivity.
  - vm_compute. reflexivity.
Defined.

(** X5.  A signature header that is accepted for two bodies, or under two
    secrets, with the same headers, forces the two expected signatures to
    coincide: a tampered body or a wrong secret passes only on a collision
    of HMAC-SHA256. *)
Theorem tampering_needs_collision (secret1 secret2 : string)
  (headers : Headers) (body1 body2 : string) (maxAge1 maxAge2 : option number)
  (clock1 clock2 : Z) :
  verifyWebhook secret1 headers body1 maxAge1 clock1 = Return true ->
  verifyWebhook secret2 headers body2 maxAge2 clock2 = Return true ->
  exists ts,
    getHeaderCaseInsensitive headers "x-realtime-timestamp" = Some ts
    /\ signWebhookPayload secret1 ts body1 = signWebhookPayload secret2 ts body2.
Proof.
  intros H1 H2.
  destruct (verdict_true_inv _ _ _ _ _ H1)
    as (sigH & ts & Hs & Ht & _ & _ & _ & Hd1).
  destruct (verdict_true_inv _ _ _ _ _ H2)
    as (sigH' & ts' & Hs' & Ht' & _ & _ & _ & Hd2).
  rewrite Hs in Hs'. rewrite Ht in Ht'.
  injection Hs' as <-. injection Ht' as <-.
  exists ts. split; [assumption|].
  unfold signWebhookPayload, hmacSha256Hex. rewrite <- Hd1, <- Hd2. reflexivity.
Qed.

Lemma tampering_needs_collision_witness :
  exists ts,
    getHeaderCaseInsensitive staleHeaders "x-realtime-timestamp" = Some ts
    /\ signWebhookPayload "my-secret-key" ts sampleEvent
       = signWebhookPayload "my-secret-key" ts sampleEvent.
Proof.
  refine (tampering_needs_collision "my-secret-key" "my-secret-key"
            staleHeaders sampleEvent sampleEvent None (Some (Finite 300)) 0
            1700000100000 _ _); vm_compute; reflexivity.
Defined.

(* ===================================================================== *)
(** ** Numbers and their decimal text *)
(* ===================================================================== *)

Lemma append_assoc (a b c : string) :
  ((a ++ b) ++ c = a ++ (b ++ c))%string.
Proof. induction a as [|x a IH]; cbn; [reflexivity | now rewrite IH]. Qed.

Lemma append_empty_r (a : string) : (a ++ EmptyString)%string = a.
Proof. induction a as [|x a IH]; cbn; [reflexivity | now rewrite IH]. Qed.

Lemma uintValue_of_uint_acc (d : Decimal.uint) (acc : positive) :
  Z.pos (Pos.of_uint_acc d acc) = uintValue (Z.pos acc) d.
Proof.
  revert acc. induction d; intros acc; cbn [Pos.of_uint_acc uintValue];
    try reflexivity; rewrite IHd; f_equal; lia.
Qed.

Lemma uintValue_of_uint (d : Decimal.uint) :
  Z.of_N (Pos.of_uint d) = uintValue 0 d.
Proof.
  induction d; cbn [Pos.of_uint uintValue]; try reflexivity;
    try (rewrite N2Z.inj_pos, uintValue_of_uint_acc; reflexivity).
  exact IHd.
Qed.

Lemma uintValue_to_uint (p : positive) :
  uintValue 0 (Pos.to_uint p) = Z.pos p.
Proof.
  rewrite <- uintValue_of_uint, DecimalPos.Unsigned.of_to. reflexivity.
Qed.

(** Reading a numeral that is followed by something that is not a digit. *)
Lemma digits_numeral (d : Decimal.uint) (acc : Z) (suffix : string) :
  startsWithDigit suffix = false ->
  digits (Some acc) (NilEmpty.string_of_uint d ++ suffix)
  = Some (uintValue acc d).
Proof.
  intros Hs. revert acc.
  induction d; intros acc;
    cbn [NilEmpty.string_of_uint String.append uintValue];
    try (cbn [digits]; rewrite <- IHd; reflexivity).
  destruct suffix as [|c rest]; [reflexivity|].
  cbn [startsWithDigit] in Hs. cbn [digits].
  destruct (digitValue c); [discriminate | reflexivity].
Qed.

Lemma whiteSpaceAt_sign_or_digit (c : ascii) (rest : string) :
  (c =? "-")%char || (c =? "+")%char
  || match digitValue c with Some _ => true | None => false end = true ->
  whiteSpaceAt (String c rest) = O.
Proof.
  unfold whiteSpaceAt.
  change (byteAt 0 (String c rest)) with (N_of_ascii c).
  generalize (byteAt 1 (String c rest)), (byteAt 2 (String c rest)).
  intros b1 b2.
  destruct c as [[] [] [] [] [] [] [] []]; intros H;
    try discriminate H; reflexivity.
Qed.

Lemma parseInt_unsigned (d : Decimal.uint) (suffix : string) :
  d <> Decimal.Nil ->
  startsWithDigit suffix = false ->
  parseInt (NilEmpty.string_of_uint d ++ suffix) = Some (uintValue 0 d).
Proof.
  intros Hd Hs.
  destruct d; [congruence|..];
    cbn [NilEmpty.string_of_uint String.append]; unfold parseInt;
    cbn [String.length trimStart];
    rewrite whiteSpaceAt_sign_or_digit by reflexivity;
    cbn [digits]; cbn [uintValue];
    rewrite <- (digits_numeral d _ suffix Hs); reflexivity.
Qed.

Lemma parseInt_negative (d : Decimal.uint) (suffix : string) :
  d <> Decimal.Nil ->
  startsWithDigit suffix = false ->
  parseInt (String "-" (NilEmpty.string_of_uint d ++ suffix))
  = Some (- uintValue 0 d).
Proof.
  intros Hd Hs. unfold parseInt. cbn [String.length trimStart].
  rewrite whiteSpaceAt_sign_or_digit by reflexivity.
  replace (digits None (NilEmpty.string_of_uint d ++ suffix))
    with (Some (uintValue 0 d)); [reflexivity|].
  destruct d; [congruence|..];
    cbn [NilEmpty.string_of_uint String.append digits uintValue];
    rewrite <- (digits_numeral d _ suffix Hs); reflexivity.
Qed.

(** The text of a number, followed by anything that is not a digit, parses
    back to the number. *)
Lemma parseInt_numberToString (n : Z) (suffix : string) :
  startsWithDigit suffix = false ->
  parseInt (numberToString n ++ suffix) = Some n.
Proof.
  intros Hs. unfold numberToString. destruct n as [|p|p]; cbn [Z.to_int].
  - change (NilZero.string_of_int (Decimal.Pos Decimal.zero))
      with (NilEmpty.string_of_uint (Decimal.D0 Decimal.Nil)).
    now rewrite parseInt_unsigned.
  - cbn [NilZero.string_of_int]. unfold NilZero.string_of_uint.
    pose proof (DecimalPos.Unsigned.to_uint_nonnil p) as Hnil.
    destruct (Pos.to_uint p) eqn:E; [congruence|..]; rewrite <- E in *;
      rewrite parseInt_unsigned, uintValue_to_uint by assumption; reflexivity.
  - cbn [NilZero.string_of_int]. unfold NilZero.string_of_uint.
    pose proof (DecimalPos.Unsigned.to_uint_nonnil p) as Hnil.
    destruct (Pos.to_uint p) eqn:E; [congruence|..]; rewrite <- E in *;
      cbn [String.append];
      rewrite parseInt_negative, uintValue_to_uint by assumption; reflexivity.
Qed.

Lemma numberToString_nonempty (n : Z) : numberToString n <> EmptyString.
Proof.
  intros H. pose proof (parseInt_numberToString n EmptyString eq_refl) as P.
  rewrite H in P. discriminate P.
Qed.

(* ===================================================================== *)
(** ** Deliveries that verify *)
(* ===================================================================== *)

Lemma claimed_signature (secret msg : string) :
  claimed (hmacSha256Hex secret msg) = hmacSha256Hex secret msg.
Proof.
  destruct (hmacSha256Hex_shape secret msg) as (tag & -> & _).
  unfold claimed. now rewrite hexEncode_no_prefix.
Qed.

Lemma hmacSha256Hex_nonempty (secret msg : string) :
  hmacSha256Hex secret msg <> EmptyString.
Proof.
  intros H. pose proof (hmacSha256Hex_length secret msg) as Hlen.
  rewrite H in Hlen. discriminate Hlen.
Qed.

(** The expected signature, presented bare next to a fresh, non-empty
    timestamp, is accepted. *)
Lemma accepts_expected (secret : string) (headers : Headers) (body : string)
  (maxAge : option number) (clock : Z) (ts : string) :
  getHeaderCaseInsensitive headers "x-realtime-signature"
  = Some (signWebhookPayload secret ts body) ->
  getHeaderCaseInsensitive headers "x-realtime-timestamp" = Some ts ->
  ts <> EmptyString ->
  fresh ts maxAge clock = true ->
  verifyWebhook secret headers body maxAge clock = Return true.
Proof.
  intros Hs Ht Hne Hf.
  rewrite (verifyWebhook_located _ _ _ _ _ _ _ Hs Ht).
  rewrite (isEmpty_false _ Hne), Hf. unfold signWebhookPayload.
  rewrite claimed_signature, Buffer_eqb_refl.
  rewrite (isEmpty_false _ (hmacSha256Hex_nonempty _ _)). reflexivity.
Qed.

Lemma fresh_within (t maxAge clock : Z) (suffix : string) :
  startsWithDigit suffix = false ->
  safeInteger t -> safeInteger maxAge ->
  0 <= clock / 1000 - t <= maxAge ->
  fresh (numberToString t ++ suffix) (Some (Finite maxAge)) clock = true.
Proof.
  intros Hs Ht Hm Hage. unfold fresh.
  rewrite parseInt_numberToString by assumption. cbn zeta.
  rewrite sub_safe by (try assumption; unfold safeInteger in *; lia).
  unfold gt. cbn [lt]. apply negb_true_iff, orb_false_iff. split; lia.
Qed.

(** X6.  Round trip under a maximum age, through the client, on safe
    integers: a delivery stamped with the decimal text of [t] and signed
    over it with the client's secret is accepted by the client's
    [verifyWebhook] at every reading of the clock whose whole seconds lie
    from [t] to [t + maxAge]. *)
Theorem fresh_delivery_accepted (self : Apinator) (body : string)
  (t maxAge clock : Z) :
  safeInteger t -> safeInteger maxAge ->
  0 <= clock / 1000 - t <= maxAge ->
  Apinator_verifyWebhook self
    (webhookHeaders (signWebhookPayload (secret self) (numberToString t) body)
                    (numberToString t))
    body (Some (Finite maxAge)) clock
  = Return true.
Proof.
  intros Ht Hm Hage. unfold Apinator_verifyWebhook.
  apply (accepts_expected _ _ _ _ _ (numberToString t)
           (webhookHeaders_signature _ _) (webhookHeaders_timestamp _ _)).
  - apply numberToString_nonempty.
  - rewrite <- (append_empty_r (numberToString t)).
    now apply fresh_within.
Qed.

Lemma fresh_delivery_accepted_witness :
  Apinator_verifyWebhook sampleClient
    (webhookHeaders
       (signWebhookPayload (secret sampleClient) (numberToString 1700000000)
                           sampleEvent)
       (numberToString 1700000000))
    sampleEvent (Some (Finite 300)) 1700000100000
  = Return true.
Proof.
  refine (fresh_delivery_accepted sampleClient sampleEvent 1700000000 300
            1700000100000 _ _ _).
  - split; reflexivity.
  - split; reflexivity.
  - split; discriminate.
Defined.

(** X7.  The signed string does not mark where the timestamp ends: a
    delivery signed for the body [p.b] is also accepted as the body [b]
    under the timestamp header extended by [.p].  With a numeric timestamp
    the extended header still parses to the same number, so, on safe
    integers, the shifted delivery passes the freshness test as well. *)
Theorem shifted_boundary_accepted (secret p b : string) :
  (forall ts clock,
      ts <> EmptyString ->
      verifyWebhook secret
        (webhookHeaders (signWebhookPayload secret ts (p ++ "." ++ b))
                        (ts ++ "." ++ p))
        b None clock
      = Return true)
  /\ (forall t maxAge clock,
         safeInteger t -> safeInteger maxAge ->
         0 <= clock / 1000 - t <= maxAge ->
         verifyWebhook secret
           (webhookHeaders
              (signWebhookPayload secret (numberToString t) (p ++ "." ++ b))
              (numberToString t ++ "." ++ p))
           b (Some (Finite maxAge)) clock
         = Return true).
Proof.
  assert (forall ts,
             signWebhookPayload secret ts (p ++ "." ++ b)
             = signWebhookPayload secret (ts ++ "." ++ p) b) as Hshift.
  { intros ts. unfold signWebhookPayload. f_equal.
    now rewrite !append_assoc. }
  split.
  - intros ts clock Hne. rewrite Hshift.
    apply (accepts_expected _ _ _ _ _ (ts ++ "." ++ p)
             (webhookHeaders_signature _ _) (webhookHeaders_timestamp _ _)).
    + destruct ts; [congruence | discriminate].
    + reflexivity.
  - intros t maxAge clock Ht Hm Hage. rewrite Hshift.
    apply (accepts_expected _ _ _ _ _ (numberToString t ++ "." ++ p)
             (webhookHeaders_signature _ _) (webhookHeaders_timestamp _ _)).
    + intros H. apply (numberToString_nonempty t).
      destruct (numberToString t); [reflexivity | discriminate H].
    + now apply fresh_within.
Qed.

Lemma shifted_boundary_accepted_witness :
  verifyWebhook "my-secret-key"
    (webhookHeaders
       (signWebhookPayload "my-secret-key" (numberToString 1700000000)
                           ("5" ++ "." ++ "tail"))
       (numberToString 1700000000 ++ "." ++ "5"))
    "tail" (Some (Finite 300)) 1700000100000
  = Return true.
Proof.
  refine (proj2 (shifted_boundary_accepted "my-secret-key" "5" "tail")
                1700000000 300 1700000100000 _ _ _).
  - split; reflexivity.
  - split; reflexivity.
  - split; discriminate.
Defined.

(* ===================================================================== *)
(** ** Canonical strings *)
(* ===================================================================== *)

(** X8.  The colon-joined string of [signChannel] does not mark where a
    field ends.  The signature of a presence subscription to [channelName]
    with data [d] is the signature of a subscription without data to the
    channel [channelName:d], and so are the [auth] tokens; likewise a colon
    may move between the socket id and the channel name. *)
Theorem channel_string_ambiguous (secret socketId channelName d : string) :
  d <> EmptyString ->
  signChannel secret socketId channelName (Some d)
  = signChannel secret socketId (channelName ++ ":" ++ d) None
  /\ (forall key,
         auth (authenticateChannel secret key socketId channelName (Some d))
         = auth (authenticateChannel secret key socketId
                                     (channelName ++ ":" ++ d) None))
  /\ signChannel secret (socketId ++ ":" ++ channelName) d None
     = signChannel secret socketId (channelName ++ ":" ++ d) None.
Proof.
  intros Hd.
  assert (signChannel secret socketId channelName (Some d)
          = signChannel secret socketId (channelName ++ ":" ++ d) None) as H.
  { unfold signChannel. destruct d; [congruence | reflexivity]. }
  split; [exact H|]. split.
  - intros key. unfold authenticateChannel. cbn [auth]. now rewrite H.
  - unfold signChannel. cbn [truthy]. f_equal. now rewrite !append_assoc.
Qed.

Lemma channel_string_ambiguous_witness :
  signChannel "my-secret-key" "12345.67890" "presence-chat" (Some "{}")
  = signChannel "my-secret-key" "12345.67890" "presence-chat:{}" None.
Proof.
  refine (proj1 (channel_string_ambiguous "my-secret-key" "12345.67890"
                   "presence-chat" "{}" _)).
  discriminate.
Defined.

Lemma append_inv_head (a x y : string) :
  (a ++ x)%string = (a ++ y)%string -> x = y.
Proof.
  induction a as [|c a IH]; cbn; [trivial|].
  intros H. injection H as H. auto.
Qed.

(** Two strings cut at the first occurrence of a character. *)
Lemma split_at_char (c : ascii) (a a' r r' : string) :
  hasChar c a = false ->
  hasChar c a' = false ->
  (a ++ String c r)%string = (a' ++ String c r')%string ->
  a = a' /\ r = r'.
Proof.
  revert a'. induction a as [|x a IH]; intros [|x' a'] Ha Ha' H; cbn in *.
  - injection H as ->. auto.
  - injection H as <- _. rewrite Ascii.eqb_refl in Ha'. discriminate.
  - injection H as -> _. rewrite Ascii.eqb_refl in Ha. discriminate.
  - injection H as <- H.
    apply orb_false_iff in Ha as [_ Ha], Ha' as [_ Ha'].
    destruct (IH a' Ha Ha' H) as [-> ->]. auto.
Qed.

(** X9.  The newline-joined string of [signRequest] is unambiguous as long
    as the timestamps are safe integers and method and path hold no
    newline: two such requests with the same signed string have the same
    timestamp, method, path and body digest, so their signatures can only
    coincide on a collision of HMAC-SHA256 or of the body digests. *)
Theorem request_string_unambiguous
  (secret method1 method2 path1 path2 body1 body2 : string) (t1 t2 : Z) :
  safeInteger t1 -> safeInteger t2 ->
  hasChar "010" method1 = false -> hasChar "010" method2 = false ->
  hasChar "010" path1 = false -> hasChar "010" path2 = false ->
  signRequest secret method1 path1 body1 t1
  = hmacSha256Hex secret
      (Spec.requestString t1 method1 path1 (Spec.bodyDigest body1))
  /\ (Spec.requestString t1 method1 path1 (Spec.bodyDigest body1)
      = Spec.requestString t2 method2 path2 (Spec.bodyDigest body2) ->
      t1 = t2 /\ method1 = method2 /\ path1 = path2
      /\ Spec.bodyDigest body1 = Spec.bodyDigest body2).
Proof.
  intros _ _ Hm1 Hm2 Hp1 Hp2. split.
  - unfold signRequest, Spec.requestString, Spec.bodyDigest.
    rewrite isEmpty_eqb. reflexivity.
  - unfold Spec.requestString. cbn [String.concat]. unfold LF.
    cbn [String.append]. intros H.
    change (Spec.decimal t1) with (numberToString t1) in H.
    change (Spec.decimal t2) with (numberToString t2) in H.
    assert (t1 = t2) as <-.
    { pose proof (parseInt_numberToString t1
                    (String "010" (method1 ++ String "010"
                       (path1 ++ String "010" (Spec.bodyDigest body1))))
                    eq_refl) as P1.
      rewrite H, parseInt_numberToString in P1 by reflexivity.
      now injection P1. }
    apply append_inv_head in H. injection H as H.
    destruct (split_at_char _ _ _ _ _ Hm1 Hm2 H) as [<- H'].
    destruct (split_at_char _ _ _ _ _ Hp1 Hp2 H') as [<- <-].
    auto.
Qed.

Lemma request_string_unambiguous_witness :
  signRequest "my-secret-key" "GET" "/apps/123/channels" EmptyString 1700000000
  = hmacSha256Hex "my-secret-key"
      (Spec.requestString 1700000000 "GET" "/apps/123/channels"
                          (Spec.bodyDigest EmptyString)).
Proof.
  exact (proj1 (request_string_unambiguous "my-secret-key" "GET" "GET"
                  "/apps/123/channels" "/apps/123/channels" EmptyString
                  EmptyString 1700000000 1700000000
                  (conj eq_refl eq_refl) (conj eq_refl eq_refl)
                  eq_refl eq_refl eq_refl eq_refl)).
Defined.

(* ===================================================================== *)
(** ** Outgoing requests *)
(* ===================================================================== *)

Lemma beforeQuery_append (a b : string) :
  beforeQuery (a ++ String "?" b) = beforeQuery a.
Proof.
  induction a as [|c a IH]; cbn [String.append beforeQuery].
  - reflexivity.
  - destruct (c =? "?")%char; [reflexivity | now rewrite IH].
Qed.

Lemma beforeQuery_without (a : string) :
  hasChar "?" a = false -> beforeQuery a = a.
Proof.
  induction a as [|c a IH]; cbn [hasChar beforeQuery]; [reflexivity|].
  intros H. apply orb_false_iff in H as [-> H]. now rewrite IH.
Qed.

Lemma hasChar_append (c : ascii) (a b : string) :
  hasChar c (a ++ b) = hasChar c a || hasChar c b.
Proof.
  induction a as [|x a IH]; cbn [String.append hasChar]; [reflexivity|].
  now rewrite IH, orb_assoc.
Qed.

(** X10.  Only the part of the path before the first question mark is
    signed: adding a query string to a path changes the URL that is fetched
    and none of the headers, the signature included. *)
Theorem query_not_signed (self : Apinator) (method path query body : string)
  (clock : Z) :
  fetch_headers (request self method (path ++ "?" ++ query) body clock)
  = fetch_headers (request self method path body clock)
  /\ fetch_url (request self method (path ++ "?" ++ query) body clock)
     = (fetch_url (request self method path body clock) ++ "?" ++ query)%string.
Proof.
  unfold request. cbn [fetch_headers fetch_url].
  change (path ++ "?" ++ query)%string with (path ++ String "?" query)%string.
  rewrite beforeQuery_append, append_assoc. split; reflexivity.
Qed.

(** X11.  Every request carries what its receiver needs to check it: the
    timestamp header parses back to the number that was signed, and the
    signature header is [signRequest] of the transmitted method, the path
    before the query, the transmitted body (the empty string when none is
    sent) and that number, under the client's secret. *)
Theorem request_verifiable (self : Apinator) (method path body : string)
  (clock : Z) :
  let call := request self method path body clock in
  exists ts signature,
    headerOf "X-Realtime-Key" (fetch_headers call) = Some (key self)
    /\ headerOf "X-Realtime-Timestamp" (fetch_headers call) = Some ts
    /\ parseInt ts = Some (clock / 1000)
    /\ headerOf "X-Realtime-Signature" (fetch_headers call) = Some signature
    /\ signature
       = signRequest (secret self) (fetch_method call) (beforeQuery path)
                     (orEmpty (fetch_body call)) (clock / 1000).
Proof.
  cbn zeta. exists (numberToString (clock / 1000)).
  exists (signRequest (secret self) method (beforeQuery path) body (clock / 1000)).
  unfold request. cbn [fetch_headers fetch_method fetch_body].
  repeat split.
  - rewrite <- (append_empty_r (numberToString _)).
    now apply parseInt_numberToString.
  - destruct body; reflexivity.
Qed.

(** X12.  [getChannels]: the prefix filter goes into the URL only.  The
    headers, the signature among them, are those of the unfiltered listing,
    and no body is sent. *)
Theorem getChannels_filter_not_signed (self : Apinator)
  (prefix : option string) (clock : Z) :
  fetch_headers (getChannels self prefix clock)
  = fetch_headers (getChannels self None clock)
  /\ fetch_body (getChannels self prefix clock) = None
  /\ headerOf "Content-Type" (fetch_headers (getChannels self prefix clock))
     = None
  /\ fetch_url (getChannels self prefix clock)
     = (fetch_url (getChannels self None clock)
        ++ if truthy prefix
           then "?filter_by_prefix=" ++ encodeURIComponent (orEmpty prefix)
           else EmptyString)%string.
Proof.
  unfold getChannels. destruct (truthy prefix); cbn [truthy].
  - pose proof (query_not_signed self "GET"
                  ("/apps/" ++ appId self ++ "/channels")
                  ("filter_by_prefix=" ++ encodeURIComponent (orEmpty prefix))
                  EmptyString clock) as [Hh Hu].
    change ("?" ++ "filter_by_prefix=" ++ encodeURIComponent (orEmpty prefix))%string
      with ("?filter_by_prefix=" ++ encodeURIComponent (orEmpty prefix))%string
      in Hh, Hu.
    rewrite Hh, Hu. repeat split; reflexivity.
  - rewrite append_empty_r. repeat split; reflexivity.
Qed.

Lemma encode_char_safe (c : ascii) :
  (if isUnreserved c
   then negb (c =? "?")%char && negb (c =? "%")%char
   else negb (upperHexDigit (N_of_ascii c / 16) =? "?")%char
        && negb (upperHexDigit (N_of_ascii c mod 16) =? "?")%char) = true.
Proof. destruct c as [[] [] [] [] [] [] [] []]; reflexivity. Qed.

Lemma encodeURIComponent_no_query (s : string) :
  hasChar "?" (encodeURIComponent s) = false.
Proof.
  induction s as [|c s IH]; [reflexivity|].
  pose proof (encode_char_safe c) as H. cbn [encodeURIComponent].
  destruct (isUnreserved c); cbn [hasChar];
    apply andb_prop in H as [H1 H2];
    apply negb_true_iff in H1, H2.
  - now rewrite H1, IH.
  - now rewrite H1, H2, IH.
Qed.

(** X13.  [getChannel]: the channel name is escaped before it enters the
    path, so a question mark in it does not cut the signed path short.  For
    an application id without a question mark the signature covers the
    whole path, escaped name included. *)
Theorem getChannel_signs_whole_path (self : Apinator) (channelName : string)
  (clock : Z) :
  hasChar "?" (appId self) = false ->
  headerOf "X-Realtime-Signature" (fetch_headers (getChannel self channelName clock))
  = Some (signRequest (secret self) "GET"
            ("/apps/" ++ appId self ++ "/channels/"
                      ++ encodeURIComponent channelName)
            EmptyString (clock / 1000))
  /\ fetch_url (getChannel self channelName clock)
     = (host self ++ "/apps/" ++ appId self ++ "/channels/"
             ++ encodeURIComponent channelName)%string.
Proof.
  intros Happ. unfold getChannel, request.
  cbn [fetch_headers fetch_url headerOf String.eqb Ascii.eqb Bool.eqb].
  rewrite beforeQuery_without; [split; reflexivity|].
  rewrite !hasChar_append, Happ, encodeURIComponent_no_query. reflexivity.
Qed.

Lemma getChannel_signs_whole_path_witness :
  headerOf "X-Realtime-Signature"
           (fetch_headers (getChannel questionClient "a?b/c" 1700000000123))
  = Some (signRequest (secret questionClient) "GET"
            ("/apps/" ++ appId questionClient ++ "/channels/"
                      ++ encodeURIComponent "a?b/c")
            EmptyString (1700000000123 / 1000)).
Proof.
  exact (proj1 (getChannel_signs_whole_path questionClient "a?b/c"
                  1700000000123 eq_refl)).
Defined.

Example encodeURIComponent_samples :
  encodeURIComponent "test channel" = "test%20channel"
  /\ encodeURIComponent "private-" = "private-"
  /\ encodeURIComponent "a?b/c&d=e#f" = "a%3Fb%2Fc%26d%3De%23f"
  /\ fetch_url (getChannels questionClient (Some "test channel") 0)
     = "https://ws-eu.apinator.io/apps/app/channels?filter_by_prefix=test%20channel".
Proof. repeat split; reflexivity. Qed.

Lemma upperHexDigit_code (n : N) :
  (n < 16)%N ->
  N_of_ascii (upperHexDigit n) = (if n <? 10 then 48 + n else 55 + n)%N.
Proof.
  intros Hn. unfold upperHexDigit.
  destruct (n <? 10)%N; apply N_ascii_embedding; lia.
Qed.

Lemma upperHexDigit_inj (a b : N) :
  (a < 16)%N -> (b < 16)%N -> upperHexDigit a = upperHexDigit b -> a = b.
Proof.
  intros Ha Hb H. apply (f_equal N_of_ascii) in H.
  rewrite !upperHexDigit_code in H by assumption.
  destruct (a <? 10)%N eqn:Ea, (b <? 10)%N eqn:Eb;
    rewrite ?N.ltb_lt, ?N.ltb_ge in *; lia.
Qed.

Lemma escaped_char_inj (c1 c2 : ascii) :
  upperHexDigit (N_of_ascii c1 / 16) = upperHexDigit (N_of_ascii c2 / 16) ->
  upperHexDigit (N_of_ascii c1 mod 16) = upperHexDigit (N_of_ascii c2 mod 16) ->
  c1 = c2.
Proof.
  intros Hhi Hlo.
  pose proof (N_ascii_bounded c1) as B1. pose proof (N_ascii_bounded c2) as B2.
  apply upperHexDigit_inj in Hhi;
    [|apply N.Div0.div_lt_upper_bound; lia..].
  apply upperHexDigit_inj in Hlo; [|apply N.mod_lt; lia..].
  rewrite <- (ascii_N_embedding c1), <- (ascii_N_embedding c2). f_equal.
  rewrite (N.div_mod (N_of_ascii c1) 16), (N.div_mod (N_of_ascii c2) 16) by lia.
  now rewrite Hhi, Hlo.
Qed.

Lemma unreserved_not_percent (c : ascii) :
  isUnreserved c = true -> c <> "%"%char.
Proof.
  intros H ->. discriminate H.
Qed.

Lemma encodeURIComponent_inj (s1 s2 : string) :
  encodeURIComponent s1 = encodeURIComponent s2 -> s1 = s2.
Proof.
  revert s2. induction s1 as [|c1 s1 IH]; intros [|c2 s2];
    cbn [encodeURIComponent].
  - reflexivity.
  - destruct (isUnreserved c2); discriminate.
  - destruct (isUnreserved c1); discriminate.
  - destruct (isUnreserved c1) eqn:U1, (isUnreserved c2) eqn:U2; intros H.
    + injection H as -> H. now rewrite (IH s2 H).
    + injection H as -> _. now apply unreserved_not_percent in U1.
    + injection H as <- _. now apply unreserved_not_percent in U2.
    + injection H as Hhi Hlo H.
      rewrite (escaped_char_inj c1 c2 Hhi Hlo), (IH s2 H). reflexivity.
Qed.

(** X14.  [getChannel]: different channel names are fetched from different
    URLs; the escaping of the name loses nothing. *)
Theorem getChannel_url_injective (self : Apinator) (name1 name2 : string)
  (clock1 clock2 : Z) :
  fetch_url (getChannel self name1 clock1)
  = fetch_url (getChannel self name2 clock2) ->
  name1 = name2.
Proof.
  unfold getChannel, request. cbn [fetch_url]. intros H.
  apply append_inv_head in H.
  apply (append_inv_head "/apps/") in H.
  apply append_inv_head in H.
  apply (append_inv_head "/channels/") in H.
  now apply encodeURIComponent_inj.
Qed.

Lemma getChannel_url_injective_witness : "a?b" = "a?b".
Proof.
  refine (getChannel_url_injective questionClient "a?b" "a?b" 0 1000 _).
  vm_compute. reflexivity.
Defined.

(* ===================================================================== *)
(** ** Responses *)
(* ===================================================================== *)

Section TransportFacts.

Variable Json : Type.
Variable emptyObject : Json.
Variable JSON_parse : string -> option Json.
Variable stringProperty : Json -> string -> option string.

Lemma orElse_nonempty (a b : string) :
  b <> EmptyString -> orElse a b <> EmptyString.
Proof. unfold orElse. destruct a; cbn [isEmpty]; [trivial | discriminate]. Qed.

(** X15.  A response that is not ok always fails, and the class of the
    error is decided by the status alone, whatever the response body holds:
    401 and 403 give an [AuthenticationError], 400 and 422 a
    [ValidationError], every other status an [ApiError] that carries the
    status and the unparsed response text. *)
Theorem error_class_by_status (status : Z) (responseText : string) :
  exists message,
    message <> EmptyString
    /\ settle Json emptyObject JSON_parse stringProperty
              (FetchResponds false status responseText)
       = Throw (Sdk
           (if (status =? 401) || (status =? 403)
            then AuthenticationError message
            else if (status =? 400) || (status =? 422)
            then ValidationError message
            else ApiError message status responseText)).
Proof.
  unfold settle. cbn [negb].
  destruct ((status =? 401) || (status =? 403)).
  - eexists. split; [|reflexivity]. now apply orElse_nonempty.
  - destruct ((status =? 400) || (status =? 422)).
    + eexists. split; [|reflexivity]. now apply orElse_nonempty.
    + eexists. split; [|reflexivity]. now apply orElse_nonempty.
Qed.

(** X16.  Whatever the network does, an error that [request] throws is one
    of the SDK's own and has a non-empty message. *)
Theorem thrown_errors_have_messages (result : FetchResult) (e : exn) :
  settle Json emptyObject JSON_parse stringProperty result = Throw e ->
  exists err, e = Sdk err /\ messageOf err <> EmptyString.
Proof.
  unfold settle. destruct result as [message | ok status text].
  - intros H. injection H as <-. eexists. split; [reflexivity|]. discriminate.
  - destruct ok; cbn [negb].
    + destruct (isEmpty text); [discriminate|].
      destruct (JSON_parse text); [discriminate|].
      intros H. injection H as <-. eexists. split; [reflexivity|]. discriminate.
    + destruct ((status =? 401) || (status =? 403));
        [|destruct ((status =? 400) || (status =? 422))];
        intros H; injection H as <-; eexists; (split; [reflexivity|]);
        cbn [messageOf]; now apply orElse_nonempty.
Qed.

(** X17.  [trigger] resolves exactly when one selector is given, the
    response is ok, and its text is empty or parses as JSON; in every other
    case it rejects. *)
Theorem trigger_resolves_iff (self : Apinator) (params : TriggerParams)
  (clock : Z) (network : FetchCall -> FetchResult) :
  triggerSettled Json emptyObject JSON_parse stringProperty
                 self params clock network
  = Return tt
  <-> exists call status text,
        trigger self params clock = Fetches call
        /\ truthy (channel params) <> truthyArray (channels params)
        /\ network call = FetchResponds true status text
        /\ (text = EmptyString \/ JSON_parse text <> None).
Proof.
  unfold triggerSettled. split.
  - destruct (trigger self params clock) as [e | call] eqn:Ht; [discriminate|].
    destruct (network call) as [m | ok status text] eqn:Hn;
      cbn [settle]; [discriminate|].
    destruct ok; cbn [negb].
    + intros H. exists call, status, text.
      split; [reflexivity|]. split.
      * revert Ht. unfold trigger.
        destruct (truthy (channel params)), (truthyArray (channels params));
          cbn [andb negb]; congruence.
      * split; [assumption|].
        destruct text; [now left | right].
        cbn [isEmpty] in H. destruct (JSON_parse _); [discriminate | discriminate H].
    + destruct ((status =? 401) || (status =? 403));
        [|destruct ((status =? 400) || (status =? 422))]; discriminate.
  - intros (call & status & text & -> & _ & Hn & Htext).
    rewrite Hn. cbn [settle negb].
    destruct text as [|c text]; [reflexivity|]. cbn [isEmpty].
    destruct Htext as [H | H]; [discriminate|].
    destruct (JSON_parse (String c text)); [reflexivity | congruence].
Qed.

End TransportFacts.

Lemma thrown_errors_have_messages_witness :
  exists err,
    Sdk (RealtimeError "Network error: socket hang up") = Sdk err
    /\ messageOf err <> EmptyString.
Proof.
  exact (thrown_errors_have_messages unit tt parsesNothing noProperty
           (FetchRejects "socket hang up") _ eq_refl).
Defined.

Lemma trigger_resolves_iff_witness :
  triggerSettled unit tt parsesNothing noProperty sampleClient oneSelector
                 1700000000123 emptyOk
  = Return tt.
Proof.
  apply (trigger_resolves_iff unit tt parsesNothing noProperty sampleClient
           oneSelector 1700000000123 emptyOk).
  eexists _, 200, EmptyString.
  split; [reflexivity|]. split; [discriminate|].
  split; [reflexivity | now left].
Defined.

(* ===================================================================== *)
(** ** The channel token *)
(* ===================================================================== *)

Lemma lowerHex_no_colon (s : string) :
  isLowerHex s = true -> hasChar ":" s = false.
Proof.
  induction s as [|c s IH]; [reflexivity|]. cbn [isLowerHex hasChar].
  intros H. apply andb_prop in H as [Hc Hs]. rewrite (IH Hs), orb_false_r.
  destruct c as [[] [] [] [] [] [] [] []]; try reflexivity; discriminate Hc.
Qed.

(** X18.  The token of [authenticateChannel]: [auth] is the client's key, a
    colon, and 64 lowercase hexadecimal digits, so the signature is what
    follows the last colon even when the key holds colons itself; the
    channel data is returned as it was given, and left out when none was
    given. *)
Theorem auth_token_format (self : Apinator) (socketId channelName : string)
  (channelData : option string) :
  exists signature,
    auth (Apinator_authenticateChannel self socketId channelName channelData)
    = (key self ++ ":" ++ signature)%string
    /\ signature
       = signChannel (secret self) socketId channelName channelData
    /\ String.length signature = 64%nat
    /\ isLowerHex signature = true
    /\ hasChar ":" signature = false
    /\ channel_data
         (Apinator_authenticateChannel self socketId channelName channelData)
       = channelData.
Proof.
  exists (signChannel (secret self) socketId channelName channelData).
  split; [reflexivity|]. split; [reflexivity|].
  split; [apply hmacSha256Hex_length|].
  split; [apply hmacSha256Hex_lower|].
  split; [apply lowerHex_no_colon, hmacSha256Hex_lower|].
  destruct channelData; reflexivity.
Qed.

(* ===================================================================== *)
(** ** The maximum age *)
(* ===================================================================== *)

Lemma verdict_true_intro (secret : string) (headers : Headers) (body : string)
  (maxAge : option number) (clock : Z) (sigH ts : string) :
  getHeaderCaseInsensitive headers "x-realtime-signature" = Some sigH ->
  getHeaderCaseInsensitive headers "x-realtime-timestamp" = Some ts ->
  isEmpty sigH = false -> isEmpty ts = false ->
  fresh ts maxAge clock = true ->
  hexDecode (claimed sigH)
  = HMAC.sha256 (utf8 secret) (utf8 (ts ++ "." ++ body)) ->
  verifyWebhook secret headers body maxAge clock = Return true.
Proof.
  intros Hs Ht Es Et Hf Hd.
  rewrite (verifyWebhook_located _ _ _ _ _ _ _ Hs Ht), Es, Et, Hf, Hd.
  unfold signWebhookPayload, hmacSha256Hex.
  now rewrite hexDecode_hexEncode, Buffer_eqb_refl.
Qed.

(** X19.  A maximum age only narrows what is accepted: a delivery accepted
    under a maximum age is accepted under every larger one at the same
    reading of the clock, and without a maximum age at every reading. *)
Theorem max_age_only_narrows (secret : string) (headers : Headers)
  (body : string) (maxAge clock : Z) :
  verifyWebhook secret headers body (Some (Finite maxAge)) clock
  = Return true ->
  (forall larger,
      maxAge <= larger ->
      verifyWebhook secret headers body (Some (Finite larger)) clock
      = Return true)
  /\ (forall clock',
         verifyWebhook secret headers body None clock' = Return true).
Proof.
  intros H.
  destruct (verdict_true_inv _ _ _ _ _ H)
    as (sigH & ts & Hs & Ht & Es & Et & Hf & Hd).
  split.
  - intros larger Hle.
    apply (verdict_true_intro _ _ _ _ _ sigH ts); try assumption.
    revert Hf. unfold fresh. destruct (parseInt ts) as [t|]; [|trivial].
    cbn zeta. destruct (sub (Finite (clock / 1000)) (toNumber t)) as [|[]|age];
      unfold gt; cbn [lt]; try trivial.
    rewrite !negb_true_iff, !orb_false_iff. intros [Hold Hfut].
    split; [|assumption]. lia.
  - intros clock'.
    now apply (verdict_true_intro _ _ _ _ _ sigH ts).
Qed.

Lemma max_age_only_narrows_witness :
  verifyWebhook "my-secret-key" staleHeaders sampleEvent (Some (Finite 3600))
                1700000100000
  = Return true.
Proof.
  refine (proj1 (max_age_only_narrows "my-secret-key" staleHeaders sampleEvent
                   300 1700000100000 _) 3600 _).
  - vm_compute. reflexivity.
  - discriminate.
Defined.

Lemma toNumber_cases (z : Z) :
  (exists negative, toNumber z = Infinity negative)
  \/ (exists value, toNumber z = Finite value).
Proof.
  unfold toNumber. destruct (2 ^ 1024 <=? Z.abs (roundInteger z)); eauto.
Qed.

(** X20.  A negative maximum age refuses every delivery: no age is at once
    at most the maximum and at least zero. *)
Theorem negative_max_age_refuses (secret : string) (headers : Headers)
  (body : string) (maxAge clock : Z) :
  maxAge < 0 ->
  verifyWebhook secret headers body (Some (Finite maxAge)) clock
  = Return false.
Proof.
  intros Hneg. unfold verifyWebhook.
  destruct (getHeaderCaseInsensitive headers "x-realtime-signature")
    as [sigH|]; [|reflexivity].
  destruct (isEmpty sigH); [reflexivity|].
  destruct (getHeaderCaseInsensitive headers "x-realtime-timestamp")
    as [ts|]; [|reflexivity].
  destruct (isEmpty ts); [reflexivity|].
  replace (fresh ts (Some (Finite maxAge)) clock) with false; [reflexivity|].
  symmetry. unfold fresh. destruct (parseInt ts) as [t|]; [|reflexivity].
  cbn zeta. apply negb_false_iff, orb_true_iff. unfold gt.
  destruct (toNumber_cases t) as [[negative ->] | [value ->]]; cbn [sub].
  - destruct negative; cbn; auto.
  - destruct (toNumber_cases (clock / 1000 - value))
      as [[negative ->] | [age ->]]; cbn [lt].
    + destruct negative; auto.
    + destruct (Z.ltb_spec age 0); [now right | left; lia].
Qed.

Lemma negative_max_age_refuses_witness :
  verifyWebhook "my-secret-key" staleHeaders sampleEvent (Some (Finite (-1)))
                1700000000000
  = Return false.
Proof.
  exact (negative_max_age_refuses "my-secret-key" staleHeaders sampleEvent
           (-1) 1700000000000 eq_refl).
Defined.

(* ===================================================================== *)
(** ** The body digest *)
(* ===================================================================== *)

(** X21.  [md5Hex] returns 32 lowercase hexadecimal digits on every input,
    the empty one included; so the empty digest that [signRequest] signs
    for the empty body is the digest of no other body. *)
Theorem md5Hex_shape (data : string) :
  String.length (md5Hex data) = 32%nat
  /\ isLowerHex (md5Hex data) = true
  /\ (Spec.bodyDigest data = EmptyString <-> data = EmptyString).
Proof.
  assert (String.length (md5Hex data) = 32%nat) as Hlen.
  { unfold md5Hex. rewrite hexEncode_length. reflexivity. }
  split; [exact Hlen|]. split; [apply hexEncode_lower|].
  unfold Spec.bodyDigest. destruct data as [|c rest]; [tauto|].
  cbn [String.eqb]. split; [|discriminate].
  intros H. unfold md5Hex in Hlen. rewrite H in Hlen. discriminate Hlen.
Qed.
